(** * True Health Age: the deterministic hazard -> age engine

    A shallow embedding of [tha_engine.py].  Python numbers read from the
    configuration and from the answer map are modelled as exact rationals
    ([Q]); the natural logarithm, and everything computed from it, lives in
    the real numbers ([R]).  Exceptions are modelled by the [result] type,
    dictionaries by [gmap string _], lists by [list]. *)

From Stdlib Require Import ZArith QArith Qround Reals Qreals Lra Lia.
From stdpp Require Import gmap strings list fin_maps sorting.

Local Open Scope Z_scope.

(** ** Exceptions *)

Inductive exn : Type :=
  | MRDTNotPositive                      (* ValueError("MRDT must be positive") *)
  | DomainMissingCaps (d : string)       (* ValueError("Domain d missing ln_cap_lo/ln_cap_hi") *)
  | DomainInvertedCaps (d : string)      (* ValueError("Domain d has inverted caps") *)
  | TooFewHR (iid : string)              (* ValueError("iid must have at least 2 HR values") *)
  | BinsLengthMismatch (iid : string)    (* ValueError("iid: bins length ... must match hr length") *)
  | UnknownOption (iid raw : string)     (* ValueError("Unknown option 'raw' for iid") *)
  | ValueNotInRange (iid : string)       (* ValueError("Value raw not in any range for iid") *)
  | CannotInterpret (iid : string)       (* ValueError("Cannot interpret answer for iid: raw") *)
  | HRNotPositive (iid : string)         (* ValueError("HR must be >0 for iid") *)
  | KeyError (k : string)
  | IndexError
  | TypeError.

Inductive result (A : Type) : Type :=
  | Ok (a : A)
  | Err (e : exn).
Arguments Ok {A} a.
Arguments Err {A} e.

Definition bind {A B} (r : result A) (k : A -> result B) : result B :=
  match r with
  | Ok a => k a
  | Err e => Err e
  end.

Notation "x <-- r ;; k" := (bind r (fun x => k))
  (at level 100, r at next level, right associativity).

Definition is_Ok {A} (r : result A) : Prop := exists a, r = Ok a.

(** A [for] loop whose body may raise. *)
Fixpoint for_each {S A} (body : S -> A -> result S) (l : list A) (s : S) : result S :=
  match l with
  | [] => Ok s
  | x :: l' => s' <-- body s x ;; for_each body l' s'
  end.

(** What [one_step_gains_months] can end in: besides the exceptions of
    the engine, [math.log] raises a ValueError ("math domain error") on a
    number that is not positive, outside any handler. *)
Inductive outcome (A : Type) : Type :=
  | Done (a : A)
  | Raised (e : exn)
  | MathDomainError.
Arguments Done {A} a.
Arguments Raised {A} e.
Arguments MathDomainError {A}.

Fixpoint for_each_outcome {S A} (body : S -> A -> outcome S) (l : list A) (s : S)
  : outcome S :=
  match l with
  | [] => Done s
  | x :: l' =>
    match body s x with
    | Done s' => for_each_outcome body l' s'
    | Raised e => Raised e
    | MathDomainError => MathDomainError
    end
  end.

(** ** Numbers *)

Definition Qlt_bool (x y : Q) : bool := negb (Qle_bool y x).

(** [int(x)] on a float truncates toward zero. *)
Definition py_int (x : Q) : Z := Z.quot (Qnum x) (Zpos (Qden x)).

(** [l[i]] on a Python list: negative indices count from the end. *)
Definition py_index {A} (l : list A) (i : Z) : result A :=
  let n := Z.of_nat (length l) in
  let j := if 0 <=? i then i else n + i in
  if (0 <=? j) && (j <? n) then
    match l !! Z.to_nat j with
    | Some x => Ok x
    | None => Err IndexError
    end
  else Err IndexError.

(** ** Answers and items *)

(** The raw form values an answer map can hold. *)
Inductive Raw : Type :=
  | RNone
  | RStr (s : string)
  | RInt (z : Z)
  | RFloat (q : Q)
  | RList (l : list string)
  | RPair (value : Q) (gender : string).

(** [answers.get(iid, None)] *)
Definition answers_get (answers : gmap string Raw) (iid : string) : Raw :=
  default RNone (answers !! iid).

(** One entry of [options_range]; an absent, [None] or infinite bound is [None]. *)
Record Range : Type := {
  rng_gender : option string;
  rng_min : option Q;
  rng_max : option Q;
  rng_bin : Z
}.

Record Item : Type := {
  it_id : string;
  it_domain : string;
  it_hr : list Q;
  it_missing_hr : option Q;
  it_input_type : option string;
  it_options : option (gmap string Z);
  it_options_range : option (list Range);
  it_scoring_weights : gmap string Q;
  it_order : option Q;
  it_group : option string;
  it_bins : option (list string)
}.

Definition sentinels : list string := ["None"; "Not sure"; "No"].

Definition str_in (s : string) (l : list string) : bool :=
  existsb (String.eqb s) l.

Definition _score_multiselect (item : Item) (selected : list string) : Q :=
  match selected with
  | [] => 0%Q
  | s0 :: rest =>
    if (Nat.eqb (length selected) 1) && str_in s0 sentinels then 0%Q
    else
      let weights := it_scoring_weights item in
      if Nat.eqb (size weights) 0 then
        let valid_selections := filter (fun s => negb (str_in s sentinels) = true) selected in
        inject_Z (Z.of_nat (length valid_selections))
      else
        fold_left (fun total_score option =>
                     match weights !! option with
                     | Some w => (total_score + w)%Q
                     | None => total_score
                     end) selected 0%Q
  end.

(** [lo <= float(value) <= hi] with infinite defaults. *)
Definition in_range (rng : Range) (value : Q) : bool :=
  match rng_min rng with Some lo => Qle_bool lo value | None => true end &&
  match rng_max rng with Some hi => Qle_bool value hi | None => true end.

(** The two range loops: the first matching interval decides. *)
Fixpoint match_gender_ranges (ranges : list Range) (value : Q) (gender : string) : option Z :=
  match ranges with
  | [] => None
  | rng :: rest =>
    if bool_decide (rng_gender rng = Some gender) then
      if in_range rng value then Some (rng_bin rng)
      else match_gender_ranges rest value gender
    else match_gender_ranges rest value gender
  end.

Fixpoint match_ranges (ranges : list Range) (value : Q) : option Z :=
  match ranges with
  | [] => None
  | rng :: rest =>
    if in_range rng value then Some (rng_bin rng) else match_ranges rest value
  end.

Definition has_gender_ranges (ranges : list Range) : bool :=
  existsb (fun rng => bool_decide (is_Some (rng_gender rng))) ranges.

Definition medical_history_ids : list string := ["family_history"; "personal_conditions"].

Definition _raw_to_bin (item : Item) (raw : Raw) : result (option Z) :=
  match raw with
  | RNone => Ok None
  | _ =>
    let max_bin := Z.of_nat (length (it_hr item)) - 1 in
    let is_multi :=
      match raw with
      | RList _ => bool_decide (it_input_type item = Some "multi_select")
      | _ => false
      end in
    if is_multi then
      let score := _score_multiselect item (match raw with RList l => l | _ => [] end) in
      if str_in (it_id item) medical_history_ids then
        if Qlt_bool score (1 # 10) then Ok (Some max_bin)
        else if Qlt_bool score (3 # 10) then Ok (Some (max_bin - 1))
        else if Qlt_bool score (6 # 10) then Ok (Some (max_bin - 2))
        else Ok (Some 0)
      else Ok (Some (Z.min (py_int score) max_bin))
    else if bool_decide (it_input_type item = Some "free_text") then Ok None
    else
      match it_options item, raw with
      | Some mapping, RStr s =>
        match mapping !! s with
        | Some bin => Ok (Some bin)
        | None => Err (UnknownOption (it_id item) s)
        end
      | _, _ =>
        match it_options_range item, raw with
        | Some ranges, (RInt _ | RFloat _ | RPair _ _) =>
          let found :=
            if has_gender_ranges ranges then
              match raw with
              | RPair value gender => Ok (match_gender_ranges ranges value gender)
              | RInt z => Ok (match_gender_ranges ranges (inject_Z z) "male")
              | RFloat q => Ok (match_gender_ranges ranges q "male")
              | _ => Err TypeError
              end
            else
              match raw with
              | RInt z => Ok (match_ranges ranges (inject_Z z))
              | RFloat q => Ok (match_ranges ranges q)
              | _ =>                     (* float() of a tuple raises in the loop body *)
                match ranges with [] => Ok None | _ => Err TypeError end
              end in
          f <-- found ;;
          match f with
          | Some bin => Ok (Some bin)
          | None => Err (ValueNotInRange (it_id item))
          end
        | _, _ =>
          match raw with
          | RInt z =>
            if (0 <=? z) && (z <=? max_bin) then Ok (Some z)
            else Err (CannotInterpret (it_id item))
          | _ => Err (CannotInterpret (it_id item))
          end
        end
      end
  end.

(** ** Configuration *)

Record Caps : Type := {
  ln_cap_lo : option Q;
  ln_cap_hi : option Q
}.

Record Config : Type := {
  cfg_algo_version : option string;
  cfg_mrdt_years : Q;
  cfg_age_clamp_years : option Q;
  cfg_domains : gmap string Caps;
  cfg_items : list Item
}.

Definition gompertz_b (mrdt_years : Q) : result R :=
  if Qle_bool mrdt_years 0 then Err MRDTNotPositive
  else Ok (ln 2 / Q2R mrdt_years)%R.

(** [sorted(items, key=lambda it: it.get("order", 999))]: a stable sort. *)
Definition order_key (it : Item) : Q := default (999 # 1) (it_order it).

Fixpoint insert_by_order (x : Item) (l : list Item) : list Item :=
  match l with
  | [] => [x]
  | y :: l' =>
    if Qle_bool (order_key x) (order_key y) then x :: y :: l'
    else y :: insert_by_order x l'
  end.

Definition sorted_by_order (l : list Item) : list Item :=
  foldr insert_by_order [] l.

(** [max(lo, min(hi, x))] *)
Definition clamp (lo hi x : R) : R := Rmax lo (Rmin hi x).

(** [d[k] += x] *)
Definition dict_add (d : gmap string R) (k : string) (x : R) : result (gmap string R) :=
  match d !! k with
  | Some v => Ok (<[k := (v + x)%R]> d)
  | None => Err (KeyError k)
  end.

Record THAResult : Type := {
  THA : R;
  AgeAccel : R;
  domainYears : gmap string R;
  itemYears : gmap string R;
  algo_version : string;
  res_b : R;
  res_groups : gmap string (list string)
}.

Record WhatIf : Type := {
  delta_years : R;
  new_THA : R;
  old_THA : R
}.

Module THAEngine.

Record t : Type := {
  cfg : Config;
  version : string;
  mrdt_years : Q;
  b : R;
  age_clamp_years : Q;
  domains : gmap string Caps;
  items : list Item;
  groups : gmap string (list string)
}.

Definition validate_domain (_ : unit) (dc : string * Caps) : result unit :=
  let '(d, caps) := dc in
  match ln_cap_lo caps, ln_cap_hi caps with
  | Some lo, Some hi =>
    if Qlt_bool hi lo then Err (DomainInvertedCaps d) else Ok tt
  | _, _ => Err (DomainMissingCaps d)
  end.

Definition validate_item (_ : unit) (it : Item) : result unit :=
  if (length (it_hr it) <? 2)%nat then Err (TooFewHR (it_id it))
  else
    match it_bins it with
    | Some bins =>
      if negb (Nat.eqb (length bins) (length (it_hr it)))
      then Err (BinsLengthMismatch (it_id it)) else Ok tt
    | None => Ok tt
    end.

(** The dictionary is walked in the order [map_to_list] gives; which
    domain is reported first may differ from Python's insertion order,
    whether validation passes does not. *)
Definition _validate (domains : gmap string Caps) (items : list Item) : result unit :=
  _ <-- for_each validate_domain (map_to_list domains) tt ;;
  for_each validate_item items tt.

Definition build_groups (items : list Item) : gmap string (list string) :=
  fold_left (fun groups it =>
               let grp := default "ungrouped" (it_group it) in
               <[grp := default [] (groups !! grp) ++ [it_id it]]> groups)
            items ∅.

Definition __init__ (cfg : Config) : result t :=
  let version := default "THA-unknown" (cfg_algo_version cfg) in
  let mrdt_years := cfg_mrdt_years cfg in
  b <-- gompertz_b mrdt_years ;;
  let age_clamp_years := default (10 # 1) (cfg_age_clamp_years cfg) in
  let domains := cfg_domains cfg in
  let items := sorted_by_order (cfg_items cfg) in
  let groups := build_groups items in
  _ <-- _validate domains items ;;
  Ok {| cfg := cfg; version := version; mrdt_years := mrdt_years; b := b;
        age_clamp_years := age_clamp_years; domains := domains;
        items := items; groups := groups |}.

(** [x <= 0] on an answer: numbers compare, anything else raises. *)
Definition as_number (raw : Raw) : result Q :=
  match raw with
  | RInt z => Ok (inject_Z z)
  | RFloat q => Ok q
  | _ => Err TypeError
  end.

Definition _calculate_bmi (height_val weight_val : Raw) (height_unit weight_unit : string)
  : result (option Q) :=
  match height_val, weight_val with
  | RNone, _ | _, RNone => Ok None
  | _, _ =>
    h <-- as_number height_val ;;
    if Qle_bool h 0 then Ok None else
    w <-- as_number weight_val ;;
    if Qle_bool w 0 then Ok None else
    let height_cm :=
      if str_in height_unit ["in"; "inches"] then (h * (254 # 100))%Q
      else if str_in height_unit ["ft"; "feet"] then (h * (3048 # 100))%Q
      else h in
    let weight_kg :=
      if str_in weight_unit ["lbs"; "pounds"; "lb"] then (w * (453592 # 1000000))%Q
      else w in
    let height_m := (height_cm / (100 # 1))%Q in
    if Qle_bool height_m 0 then Ok None
    else Ok (Some (weight_kg / (height_m * height_m))%Q)
  end.

Definition _bmi_to_lnhr (bmi : option Q) : R :=
  match bmi with
  | None => ln (Q2R (105 # 100))
  | Some bmi =>
    if Qlt_bool bmi (185 # 10) then ln (Q2R (120 # 100))
    else if Qlt_bool bmi (25 # 1) then ln (Q2R (100 # 100))
    else if Qlt_bool bmi (30 # 1) then ln (Q2R (115 # 100))
    else if Qlt_bool bmi (35 # 1) then ln (Q2R (140 # 100))
    else ln (Q2R (180 # 100))
  end.

Definition _item_lnhr (item : Item) (bin_index : option Z) : result R :=
  hr <-- match bin_index with
         | Some i => py_index (it_hr item) i
         | None => Ok (default (1 # 1) (it_missing_hr item))
         end ;;
  if Qle_bool hr 0 then Err (HRNotPositive (it_id item))
  else Ok (ln (Q2R hr)).

(** The running state of [compute]: [per_domain_ln] and [itemYears]. *)
Definition acc : Type := (gmap string R * gmap string R)%type.

Definition bmi_step (self : t) (answers : gmap string Raw) (st : acc) : result acc :=
  let '(per_domain_ln, itemYears) := st in
  let height_val := answers_get answers "height" in
  let weight_val := answers_get answers "weight" in
  match height_val, weight_val with
  | RNone, _ | _, RNone => Ok st
  | _, _ =>
    bmi <-- _calculate_bmi height_val weight_val "in" "lbs" ;;
    let bmi_lnhr := _bmi_to_lnhr bmi in
    per_domain_ln <-- dict_add per_domain_ln "body" bmi_lnhr ;;
    Ok (per_domain_ln, <["bmi_calculated" := (bmi_lnhr / b self)%R]> itemYears)
  end.

Definition item_step (self : t) (answers : gmap string Raw) (st : acc) (it : Item)
  : result acc :=
  let '(per_domain_ln, itemYears) := st in
  let iid := it_id it in
  let dom := it_domain it in
  let raw := answers_get answers iid in
  if str_in iid ["height"; "weight"] then Ok st
  else
    bin_idx <-- _raw_to_bin it raw ;;
    lnhr <-- _item_lnhr it bin_idx ;;
    per_domain_ln <-- dict_add per_domain_ln dom lnhr ;;
    Ok (per_domain_ln, <[iid := (lnhr / b self)%R]> itemYears).

Definition clamp_entry (self : t) (dv : string * R) : result (string * R) :=
  let '(dom, lnval) := dv in
  match domains self !! dom with
  | None => Err (KeyError dom)
  | Some caps =>
    match ln_cap_lo caps, ln_cap_hi caps with
    | Some lo, Some hi => Ok (dom, clamp (Q2R lo) (Q2R hi) lnval)
    | None, _ => Err (KeyError "ln_cap_lo")
    | _, None => Err (KeyError "ln_cap_hi")
    end
  end.

Fixpoint clamp_entries (self : t) (l : list (string * R)) : result (list (string * R)) :=
  match l with
  | [] => Ok []
  | dv :: rest =>
    dv' <-- clamp_entry self dv ;;
    rest' <-- clamp_entries self rest ;;
    Ok (dv' :: rest')
  end.

(** [per_domain_ln = {d: 0.0 for d in self.domains.keys()}; itemYears = {}] *)
Definition init_acc (self : t) : acc :=
  ((fun _ => 0%R) <$> domains self, ∅).

(** Lines 234-264: the per-domain totals after the caps, and [itemYears]. *)
Definition domain_totals (self : t) (answers : gmap string Raw) : result acc :=
  st <-- bmi_step self answers (init_acc self) ;;
  st <-- for_each (item_step self answers) (items self) st ;;
  let '(per_domain_ln, itemYears) := st in
  clamped <-- clamp_entries self (map_to_list per_domain_ln) ;;
  Ok (list_to_map clamped : gmap string R, itemYears).

Definition compute (self : t) (chron_age_years : Q) (answers : gmap string Raw)
  : result THAResult :=
  st <-- domain_totals self answers ;;
  let '(per_domain_ln, itemYears) := st in
  let lnHR_total := fold_left Rplus (map_to_list per_domain_ln).*2 0%R in
  let delta_years := (lnHR_total / b self)%R in
  let delta_years :=
    Rmax (- Q2R (age_clamp_years self)) (Rmin (Q2R (age_clamp_years self)) delta_years) in
  let domainYears := (fun val => (val / b self)%R) <$> per_domain_ln in
  Ok {| THA := (Q2R chron_age_years + delta_years)%R;
        AgeAccel := delta_years;
        domainYears := domainYears;
        itemYears := itemYears;
        algo_version := version self;
        res_b := b self;
        res_groups := groups self |}.

Definition what_if (self : t) (chron_age_years : Q)
           (answers changes : gmap string Raw) : result WhatIf :=
  let proposed := changes ∪ answers in
  base <-- compute self chron_age_years answers ;;
  new <-- compute self chron_age_years proposed ;;
  Ok {| delta_years := (AgeAccel new - AgeAccel base)%R;
        new_THA := THA new;
        old_THA := THA base |}.

(** One turn of the loop of [one_step_gains_months]. *)
Definition gain_step (self : t) (answers : gmap string Raw)
           (gains : gmap string R) (it : Item) : outcome (gmap string R) :=
  let iid := it_id it in
  let raw := answers_get answers iid in
  match raw with
  | RNone => Done (<[iid := 0%R]> gains)
  | _ =>
    match _raw_to_bin it raw with
    | Err _ => Done (<[iid := 0%R]> gains)          (* except Exception *)
    | Ok curr =>
      let max_bin := Z.of_nat (length (it_hr it)) - 1 in
      match curr with
      | None => Done (<[iid := 0%R]> gains)
      | Some curr =>
        if max_bin <=? curr then Done (<[iid := 0%R]> gains)
        else
          match py_index (it_hr it) curr with
          | Err e => Raised e
          | Ok hr_now =>
            match py_index (it_hr it) (curr + 1) with
            | Err e => Raised e
            | Ok hr_next =>
              if Qle_bool hr_now 0 then MathDomainError
              else if Qle_bool hr_next 0 then MathDomainError
              else
                let gain_years := ((ln (Q2R hr_now) - ln (Q2R hr_next)) / b self)%R in
                Done (<[iid := (gain_years * 12)%R]> gains)
            end
          end
      end
    end
  end.

Definition one_step_gains_months (self : t) (answers : gmap string Raw)
  : outcome (gmap string R) :=
  for_each_outcome (gain_step self answers) (items self) ∅.

End THAEngine.

(** The answers the command line uses when none are given:
    [{it["id"]: len(it["hr"]) // 2 for it in cfg["items"]}]. *)
Definition default_answers (cfg : Config) : gmap string Raw :=
  fold_left (fun answers it =>
               <[it_id it := RInt (Z.of_nat (length (it_hr it)) / 2)]> answers)
            (cfg_items cfg) ∅.

(** The evaluation the command line prints: construct, then compute on the
    given answers or on the default ones. *)
Definition main (cfg : Config) (age : Q) (answers : option (gmap string Raw))
  : result THAResult :=
  eng <-- THAEngine.__init__ cfg ;;
  THAEngine.compute eng age (default (default_answers cfg) answers).

(** * Examples and specification-side definitions *)

(** ** Example configuration

    A small questionnaire used to exercise the definitions: one option-coded
    item, one numeric-range item, one gender-partitioned range item and one
    multi-select item, over the domains "body" and "diet". *)

Definition mk_range (g : option string) (lo hi : option Q) (bin : Z) : Range :=
  {| rng_gender := g; rng_min := lo; rng_max := hi; rng_bin := bin |}.

(** Daily vegetable servings: 0-1 is the worst bin, 5 and more the best. *)
Definition veg_item : Item :=
  {| it_id := "veg_servings"; it_domain := "diet";
     it_hr := [(13 # 10); (11 # 10); (1 # 1)]%Q; it_missing_hr := None;
     it_input_type := None; it_options := None;
     it_options_range :=
       Some [mk_range None (Some (0 # 1)) (Some (1 # 1)) 0;
             mk_range None (Some (2 # 1)) (Some (4 # 1)) 1;
             mk_range None (Some (5 # 1)) None 2]%Q;
     it_scoring_weights := ∅; it_order := Some (2 # 1)%Q; it_group := Some "diet";
     it_bins := None |}.

(** Waist circumference, with thresholds per gender. *)
Definition waist_item : Item :=
  {| it_id := "waist"; it_domain := "body";
     it_hr := [(14 # 10); (1 # 1)]%Q; it_missing_hr := None;
     it_input_type := None; it_options := None;
     it_options_range :=
       Some [mk_range (Some "male") (Some (40 # 1)) None 0;
             mk_range (Some "male") None (Some (40 # 1)) 1;
             mk_range (Some "female") (Some (35 # 1)) None 0;
             mk_range (Some "female") None (Some (35 # 1)) 1]%Q;
     it_scoring_weights := ∅; it_order := Some (3 # 1)%Q; it_group := Some "body";
     it_bins := None |}.

Definition smoking_item : Item :=
  {| it_id := "smoking"; it_domain := "body";
     it_hr := [(18 # 10); (1 # 1)]%Q; it_missing_hr := None;
     it_input_type := None;
     it_options := Some (<["yes" := 0]> (<["no" := 1]> ∅));
     it_options_range := None;
     it_scoring_weights := ∅; it_order := Some (1 # 1)%Q; it_group := Some "body";
     it_bins := Some ["yes"; "no"] |}.

Definition symptoms_item : Item :=
  {| it_id := "symptoms"; it_domain := "body";
     it_hr := [(1 # 1); (11 # 10); (12 # 10)]%Q; it_missing_hr := None;
     it_input_type := Some "multi_select"; it_options := None;
     it_options_range := None;
     it_scoring_weights := ∅; it_order := Some (4 # 1)%Q; it_group := Some "body";
     it_bins := None |}.

Definition mk_caps (lo hi : Q) : Caps :=
  {| ln_cap_lo := Some lo; ln_cap_hi := Some hi |}.

Definition demo_domains : gmap string Caps :=
  <["body" := mk_caps (-1 # 2) (1 # 2)]> (<["diet" := mk_caps (-3 # 10) (3 # 10)]> ∅).

Definition demo_cfg : Config :=
  {| cfg_algo_version := Some "THA-demo"; cfg_mrdt_years := (8 # 1)%Q;
     cfg_age_clamp_years := None;
     cfg_domains := demo_domains;
     cfg_items := [veg_item; waist_item; smoking_item; symptoms_item] |}.

Definition demo_answers : gmap string Raw :=
  <["smoking" := RStr "yes"]> (<["veg_servings" := RInt 3]> ∅).

(** ** What the validation checks, and what the loop adds up

    The definitions below are not part of the program: they name the
    quantities the statements are about. *)

(** The three checks of the constructor. *)
Definition caps_ok (caps : Caps) : Prop :=
  exists lo hi, ln_cap_lo caps = Some lo /\ ln_cap_hi caps = Some hi /\ (lo <= hi)%Q.

Definition item_shape_ok (it : Item) : Prop :=
  (2 <= length (it_hr it))%nat /\
  forall bins, it_bins it = Some bins -> length bins = length (it_hr it).

Definition config_checks (cfg : Config) : Prop :=
  (0 < cfg_mrdt_years cfg)%Q /\
  (forall d caps, cfg_domains cfg !! d = Some caps -> caps_ok caps) /\
  (forall it, it ∈ cfg_items cfg -> item_shape_ok it).


(** Items the loop of [compute] scores: all but "height" and "weight". *)
Definition scored (it : Item) : bool := negb (str_in (it_id it) ["height"; "weight"]).

(** Classification followed by the hazard-ratio lookup, for one item. *)
Definition item_lnhr_of (answers : gmap string Raw) (it : Item) : result R :=
  bin_idx <-- _raw_to_bin it (answers_get answers (it_id it)) ;;
  THAEngine._item_lnhr it bin_idx.

Definition value_or_zero (r : result R) : R :=
  match r with Ok x => x | Err _ => 0%R end.

(** What one item adds to the running total of domain [dom]. *)
Definition item_term (answers : gmap string Raw) (dom : string) (it : Item) : R :=
  if scored it && String.eqb (it_domain it) dom
  then value_or_zero (item_lnhr_of answers it) else 0%R.

(** Whether both "height" and "weight" are answered. *)
Definition bmi_present (answers : gmap string Raw) : bool :=
  match answers_get answers "height", answers_get answers "weight" with
  | RNone, _ | _, RNone => false
  | _, _ => true
  end.

Definition bmi_lnhr_of (answers : gmap string Raw) : result R :=
  bmi <-- THAEngine._calculate_bmi (answers_get answers "height")
                                   (answers_get answers "weight") "in" "lbs" ;;
  Ok (THAEngine._bmi_to_lnhr bmi).

(** What the BMI preprocessing adds to the running total of domain [dom]. *)
Definition bmi_term (answers : gmap string Raw) (dom : string) : R :=
  if bmi_present answers && String.eqb "body" dom
  then value_or_zero (bmi_lnhr_of answers) else 0%R.

Definition sum_terms (f : Item -> R) (l : list Item) : R :=
  foldr (fun it acc => (f it + acc)%R) 0%R l.

(** Following the spec's words (4.3, steps 1 to 3): the total of a domain
    before its caps is the BMI term plus the log hazard ratio of every
    scored item of that domain. *)
Definition spec_unclamped_total (self : THAEngine.t) (answers : gmap string Raw)
           (dom : string) : R :=
  (bmi_term answers dom + sum_terms (item_term answers dom) (THAEngine.items self))%R.

(** Following the spec's words (4.3, step 1): BMI in metric units from
    inches and pounds, and the five clinical categories with the penalty
    for a BMI that cannot be computed. *)
Definition imperial_bmi (h w : Q) : Q :=
  ((w * (453592 # 1000000)) /
   ((h * (254 # 100) / (100 # 1)) * (h * (254 # 100) / (100 # 1))))%Q.

Definition spec_bmi_hazard_ratio (h w hr : Q) : Prop :=
  (((h <= 0)%Q \/ (w <= 0)%Q) /\ hr = (105 # 100)%Q) \/
  ((0 < h)%Q /\ (0 < w)%Q /\
   (((imperial_bmi h w < 185 # 10)%Q /\ hr = (120 # 100)%Q) \/
    ((185 # 10 <= imperial_bmi h w)%Q /\ (imperial_bmi h w < 25 # 1)%Q /\ hr = (100 # 100)%Q) \/
    ((25 # 1 <= imperial_bmi h w)%Q /\ (imperial_bmi h w < 30 # 1)%Q /\ hr = (115 # 100)%Q) \/
    ((30 # 1 <= imperial_bmi h w)%Q /\ (imperial_bmi h w < 35 # 1)%Q /\ hr = (140 # 100)%Q) \/
    ((35 # 1 <= imperial_bmi h w)%Q /\ hr = (180 # 100)%Q))).

(** The loop of [compute] gets as far as item [it]: the BMI step and the
    steps of all items before [it] succeed, leaving the state [st]. *)
Definition reaches (self : THAEngine.t) (answers : gmap string Raw)
           (it : Item) (st : THAEngine.acc) : Prop :=
  exists l1 l2 st0,
    THAEngine.items self = l1 ++ it :: l2 /\
    THAEngine.bmi_step self answers (THAEngine.init_acc self) = Ok st0 /\
    for_each (THAEngine.item_step self answers) l1 st0 = Ok st.

(** The engine the constructor builds from [demo_cfg]. *)
Definition demo_engine : THAEngine.t :=
  {| THAEngine.cfg := demo_cfg;
     THAEngine.version := "THA-demo";
     THAEngine.mrdt_years := (8 # 1)%Q;
     THAEngine.b := (ln 2 / Q2R (8 # 1))%R;
     THAEngine.age_clamp_years := (10 # 1)%Q;
     THAEngine.domains := demo_domains;
     THAEngine.items := [smoking_item; veg_item; waist_item; symptoms_item];
     THAEngine.groups := THAEngine.build_groups
                           [smoking_item; veg_item; waist_item; symptoms_item] |}.

(** [demo_cfg] with a negative global clamp. *)
Definition negative_clamp_cfg : Config :=
  {| cfg_algo_version := Some "THA-demo"; cfg_mrdt_years := (8 # 1)%Q;
     cfg_age_clamp_years := Some (-1 # 1)%Q;
     cfg_domains := demo_domains;
     cfg_items := [veg_item; waist_item; smoking_item; symptoms_item] |}.

Definition negative_clamp_engine : THAEngine.t :=
  {| THAEngine.cfg := negative_clamp_cfg;
     THAEngine.version := "THA-demo";
     THAEngine.mrdt_years := (8 # 1)%Q;
     THAEngine.b := (ln 2 / Q2R (8 # 1))%R;
     THAEngine.age_clamp_years := (-1 # 1)%Q;
     THAEngine.domains := demo_domains;
     THAEngine.items := [smoking_item; veg_item; waist_item; symptoms_item];
     THAEngine.groups := THAEngine.build_groups
                           [smoking_item; veg_item; waist_item; symptoms_item] |}.

(** The hazard ratio [_item_lnhr] selects: the entry of the bin, or
    [missing_hr] (default 1.0) when there is no bin. *)
Definition selected_hr (it : Item) (bin_index : option Z) : result Q :=
  match bin_index with
  | Some i => py_index (it_hr it) i
  | None => Ok (default (1 # 1)%Q (it_missing_hr it))
  end.




(** A configuration with an item named "height" whose domain is not
    configured, and one with a scored item in that situation. *)
Definition height_item : Item :=
  {| it_id := "height"; it_domain := "anthropometry";
     it_hr := [(1 # 1); (1 # 1)]%Q; it_missing_hr := None;
     it_input_type := None; it_options := None; it_options_range := None;
     it_scoring_weights := ∅; it_order := Some (1 # 1)%Q; it_group := None;
     it_bins := None |}.





(** Answers with a height in inches and a weight in pounds. *)
Definition bmi_answers : gmap string Raw :=
  <["height" := RInt 70]> (<["weight" := RInt 180]> (<["smoking" := RStr "no"]> ∅)).

(** Two answer maps that differ in the smoking answer only. *)
Definition smoker_answers : gmap string Raw := <["smoking" := RStr "yes"]> ∅.
Definition nonsmoker_answers : gmap string Raw := <["smoking" := RStr "no"]> ∅.

(** ** Quantities the further properties are about *)

(** [sum(d.values())] *)
Definition sum_values (m : gmap string R) : R :=
  fold_left Rplus (map_to_list m).*2 0%R.

(** The identifiers and the group of an item, as [__init__] reads them. *)
Definition group_of (it : Item) : string := default "ungrouped" (it_group it).

Definition ids_of_group (g : string) (l : list Item) : list string :=
  it_id <$> filter (fun it => group_of it = g) l.


(** An item none of whose rules can reinterpret an integer answer. *)
Definition plain_item (it : Item) : Prop :=
  it_input_type it <> Some "free_text" /\ it_options_range it = None.

(** An engine with a free-text item. *)
Definition notes_item : Item :=
  {| it_id := "notes"; it_domain := "body";
     it_hr := [(1 # 1); (1 # 1)]%Q; it_missing_hr := None;
     it_input_type := Some "free_text"; it_options := None; it_options_range := None;
     it_scoring_weights := ∅; it_order := Some (9 # 1)%Q; it_group := None;
     it_bins := None |}.

Definition notes_engine : THAEngine.t :=
  {| THAEngine.cfg := demo_cfg;
     THAEngine.version := "THA-demo";
     THAEngine.mrdt_years := (8 # 1)%Q;
     THAEngine.b := (ln 2 / Q2R (8 # 1))%R;
     THAEngine.age_clamp_years := (10 # 1)%Q;
     THAEngine.domains := demo_domains;
     THAEngine.items := [smoking_item; notes_item];
     THAEngine.groups := THAEngine.build_groups [smoking_item; notes_item] |}.

(** The identifiers under which an evaluation records item years. *)
Definition scored_ids (l : list Item) : gset string :=
  list_to_set (it_id <$> filter (fun it => scored it = true) l).

(** The months one item can gain, as the loop of [one_step_gains_months]
    computes them before storing them under the item's identifier. *)
Definition gain_of (self : THAEngine.t) (answers : gmap string Raw) (it : Item)
  : outcome R :=
  match _raw_to_bin it (answers_get answers (it_id it)) with
  | Err _ | Ok None => Done 0%R
  | Ok (Some curr) =>
    if Z.of_nat (length (it_hr it)) - 1 <=? curr then Done 0%R
    else
      match py_index (it_hr it) curr with
      | Err e => Raised e
      | Ok hr_now =>
        match py_index (it_hr it) (curr + 1) with
        | Err e => Raised e
        | Ok hr_next =>
          if Qle_bool hr_now 0 then MathDomainError
          else if Qle_bool hr_next 0 then MathDomainError
          else Done ((ln (Q2R hr_now) - ln (Q2R hr_next)) / THAEngine.b self * 12)%R
        end
      end
  end.

(** A configuration whose scored items take a bin index directly. *)
Definition cli_cfg : Config :=
  {| cfg_algo_version := None; cfg_mrdt_years := (8 # 1)%Q;
     cfg_age_clamp_years := None;
     cfg_domains := demo_domains;
     cfg_items := [symptoms_item; height_item; smoking_item] |}.
(** * The bin classifier *)

Section Classifier.

Variable item : Item.

Lemma raw_to_bin_int_plain (i : Z) :
  it_input_type item <> Some "free_text" ->
  it_options_range item = None ->
  _raw_to_bin item (RInt i) =
    if (0 <=? i) && (i <=? Z.of_nat (length (it_hr item)) - 1) then Ok (Some i)
    else Err (CannotInterpret (it_id item)).
Proof.
  intros Hft Hrng. unfold _raw_to_bin. cbn zeta iota beta.
  rewrite bool_decide_eq_false_2 by exact Hft.
  rewrite Hrng. destruct (it_options item); reflexivity.
Qed.

Lemma raw_to_bin_free_text (raw : Raw) :
  it_input_type item = Some "free_text" ->
  _raw_to_bin item raw = Ok None.
Proof.
  intros Hft. unfold _raw_to_bin.
  destruct raw; try reflexivity; cbn zeta iota beta;
    rewrite ?Hft; try reflexivity.
Qed.

End Classifier.

(** C2 (as amended).  For an item that is not free text and has no
    numeric-range rule, classifying the integer answer [i], a valid bin
    index in [0, len(hr)-1], returns bin [i] unchanged. *)
Theorem C2_direct_index_unchanged (item : Item) (i : Z) :
  it_input_type item <> Some "free_text" ->
  it_options_range item = None ->
  0 <= i <= Z.of_nat (length (it_hr item)) - 1 ->
  _raw_to_bin item (RInt i) = Ok (Some i).
Proof.
  intros Hft Hrng [Hlo Hhi].
  rewrite raw_to_bin_int_plain by assumption.
  apply Z.leb_le in Hlo. apply Z.leb_le in Hhi.
  rewrite Hlo, Hhi. reflexivity.
Qed.

Lemma C2_direct_index_witness :
  _raw_to_bin smoking_item (RInt 1) = Ok (Some 1).
Proof.
  apply (C2_direct_index_unchanged smoking_item 1);
    [ discriminate | reflexivity | vm_compute; split; discriminate ].
Defined.

(** C2, as stated, fails on an item with a numeric-range rule: 2 is a
    valid bin index of [veg_item], yet the integer answer 2 is read as two
    servings and classified by the intervals as bin 1. *)
Lemma C2_range_item_counterexample :
  0 <= 2 <= Z.of_nat (length (it_hr veg_item)) - 1 /\
  _raw_to_bin veg_item (RInt 2) = Ok (Some 1) /\
  _raw_to_bin veg_item (RInt 2) <> Ok (Some 2).
Proof.
  split; [ vm_compute; split; discriminate | ].
  split; [ vm_compute; reflexivity | vm_compute; discriminate ].
Qed.

(** ** Multi-select scoring *)

Lemma py_int_floor (q : Q) : (0 <= q)%Q -> py_int q = Qfloor q.
Proof.
  destruct q as [n d]. unfold Qle, py_int, Qfloor. cbn. intros H.
  apply Z.quot_div_nonneg; lia.
Qed.

Lemma score_count_nonneg (n : nat) : (0 <= inject_Z (Z.of_nat n))%Q.
Proof. unfold Qle, inject_Z. cbn. lia. Qed.

Section CountScoring.

Variable item : Item.
Hypothesis no_weights : it_scoring_weights item = ∅.

(** Without weights the score is the number of selected labels that are
    not sentinels; the two early returns agree with that count. *)
Lemma score_is_count (selected : list string) :
  _score_multiselect item selected =
    inject_Z (Z.of_nat (length (filter (fun s => negb (str_in s sentinels) = true) selected))).
Proof.
  unfold _score_multiselect. destruct selected as [|s0 rest]; [ reflexivity | ].
  rewrite no_weights, map_size_empty. cbn [Nat.eqb].
  destruct (Nat.eqb (length (s0 :: rest)) 1 && str_in s0 sentinels) eqn:E;
    [ | reflexivity ].
  apply andb_true_iff in E as [Hlen Hs].
  apply Nat.eqb_eq in Hlen. destruct rest; [ | discriminate ].
  rewrite filter_cons. rewrite decide_False; [ reflexivity | ].
  rewrite Hs. discriminate.
Qed.

Lemma score_nonneg (selected : list string) :
  (0 <= _score_multiselect item selected)%Q.
Proof. rewrite score_is_count. apply score_count_nonneg. Qed.

End CountScoring.

Lemma raw_to_bin_multiselect (item : Item) (selected : list string) :
  it_input_type item = Some "multi_select" ->
  str_in (it_id item) medical_history_ids = false ->
  _raw_to_bin item (RList selected) =
    Ok (Some (Z.min (py_int (_score_multiselect item selected))
                    (Z.of_nat (length (it_hr item)) - 1))).
Proof.
  intros Hms Hmed. unfold _raw_to_bin. cbn zeta iota beta.
  rewrite bool_decide_eq_true_2 by exact Hms. rewrite Hmed. reflexivity.
Qed.

(** C7.  For a multi-select item without scoring weights: ["None"] alone
    scores 0, ["A","B"] scores 2 and ["A","None"] scores 1; in general the
    score is the number of selected labels that are not sentinels; and when
    the item is not a medical-history item the bin is
    min(floor(score), max_bin). *)
Theorem C7_multiselect_count_scoring (item : Item) :
  it_input_type item = Some "multi_select" ->
  it_scoring_weights item = ∅ ->
  _score_multiselect item ["None"] = 0%Q /\
  _score_multiselect item ["A"; "B"] = 2%Q /\
  _score_multiselect item ["A"; "None"] = 1%Q /\
  (forall selected,
     _score_multiselect item selected =
       inject_Z (Z.of_nat (length (filter (fun s => negb (str_in s sentinels) = true) selected)))) /\
  (str_in (it_id item) medical_history_ids = false ->
   forall selected,
     _raw_to_bin item (RList selected) =
       Ok (Some (Z.min (Qfloor (_score_multiselect item selected))
                       (Z.of_nat (length (it_hr item)) - 1)))).
Proof.
  intros Hms Hw.
  split; [ | split; [ | split; [ | split ] ] ];
    try (rewrite (score_is_count item Hw); reflexivity).
  - intros selected. apply score_is_count, Hw.
  - intros Hmed selected.
    rewrite raw_to_bin_multiselect by assumption.
    rewrite py_int_floor by (apply score_nonneg; exact Hw). reflexivity.
Qed.

Lemma C7_multiselect_witness :
  _score_multiselect symptoms_item ["A"; "None"] = 1%Q /\
  _raw_to_bin symptoms_item (RList ["A"; "B"; "C"; "D"]) = Ok (Some 2).
Proof.
  destruct (C7_multiselect_count_scoring symptoms_item eq_refl eq_refl)
    as (_ & _ & H1 & _ & Hbin).
  split; [ exact H1 | ].
  rewrite (Hbin eq_refl). vm_compute. reflexivity.
Defined.

(** ** Gender-partitioned ranges *)




(** * The hazard engine *)

(** ** The error monad and the loops *)

Lemma bind_Ok {A B} (r : result A) (k : A -> result B) (b : B) :
  bind r k = Ok b -> exists a, r = Ok a /\ k a = Ok b.
Proof. destruct r as [a|e]; cbn; [ eauto | discriminate ]. Qed.

Ltac inv_bind H :=
  let a := fresh "a" in
  let Ha := fresh "Ha" in
  apply bind_Ok in H as (a & Ha & H).

Lemma for_each_app {S A} (body : S -> A -> result S) (l1 l2 : list A) (s : S) :
  for_each body (l1 ++ l2) s = bind (for_each body l1 s) (for_each body l2).
Proof.
  revert s. induction l1 as [|x l1 IH]; intros s; cbn; [ reflexivity | ].
  destruct (body s x); cbn; [ apply IH | reflexivity ].
Qed.

Lemma for_each_fails_at {S A} (body : S -> A -> result S) l1 x l2 s s1 e :
  for_each body l1 s = Ok s1 ->
  body s1 x = Err e ->
  for_each body (l1 ++ x :: l2) s = Err e.
Proof.
  intros H1 Hx. rewrite for_each_app, H1. cbn. rewrite Hx. reflexivity.
Qed.

(** A loop of checks passes exactly when every check passes. *)
Lemma for_each_checks {A} (check : unit -> A -> result unit) (l : list A) :
  is_Ok (for_each check l tt) <-> Forall (fun x => check tt x = Ok tt) l.
Proof.
  induction l as [|x l IH]; cbn.
  - split; [ constructor | intros _; exists tt; reflexivity ].
  - destruct (check tt x) as [[]|e] eqn:E; cbn.
    + rewrite IH. split; [ intros H; constructor; auto | intros H; inversion H; auto ].
    + split; [ intros [u Hu]; discriminate | intros H; inversion H; congruence ].
Qed.

(** ** Sorting by declared order *)

Lemma insert_by_order_perm (x : Item) (l : list Item) :
  insert_by_order x l ≡ₚ x :: l.
Proof.
  induction l as [|y l IH]; cbn; [ reflexivity | ].
  destruct (Qle_bool (order_key x) (order_key y)); [ reflexivity | ].
  rewrite IH. apply Permutation_swap.
Qed.

Lemma sorted_by_order_perm (l : list Item) : sorted_by_order l ≡ₚ l.
Proof.
  induction l as [|x l IH]; cbn; [ reflexivity | ].
  rewrite insert_by_order_perm, IH. reflexivity.
Qed.

Lemma elem_of_sorted_by_order (it : Item) (l : list Item) :
  it ∈ sorted_by_order l <-> it ∈ l.
Proof. rewrite sorted_by_order_perm. reflexivity. Qed.

(** ** Construction *)

Lemma Qlt_bool_true (x y : Q) : Qlt_bool x y = true <-> (x < y)%Q.
Proof.
  unfold Qlt_bool. rewrite negb_true_iff.
  rewrite <- not_true_iff_false, Qle_bool_iff. split.
  - apply Qnot_le_lt.
  - apply Qlt_not_le.
Qed.

Lemma Qlt_bool_false (x y : Q) : Qlt_bool x y = false <-> (y <= x)%Q.
Proof.
  unfold Qlt_bool. rewrite negb_false_iff. apply Qle_bool_iff.
Qed.

Lemma Qle_bool_false (x y : Q) : Qle_bool x y = false <-> (y < x)%Q.
Proof.
  rewrite <- not_true_iff_false, Qle_bool_iff. split.
  - apply Qnot_le_lt.
  - apply Qlt_not_le.
Qed.

Lemma validate_domain_ok (d : string) (caps : Caps) :
  THAEngine.validate_domain tt (d, caps) = Ok tt <-> caps_ok caps.
Proof.
  unfold THAEngine.validate_domain, caps_ok.
  destruct (ln_cap_lo caps) as [lo|], (ln_cap_hi caps) as [hi|]; cbn.
  - destruct (Qlt_bool hi lo) eqn:E.
    + apply Qlt_bool_true in E. split; [ discriminate | ].
      intros (lo' & hi' & [= <-] & [= <-] & Hle).
      exfalso. eapply Qlt_not_le; eassumption.
    + apply Qlt_bool_false in E. split; [ eauto 6 | reflexivity ].
  - split; [ discriminate | intros (? & ? & _ & ? & _); discriminate ].
  - split; [ discriminate | intros (? & ? & ? & _); discriminate ].
  - split; [ discriminate | intros (? & ? & ? & _); discriminate ].
Qed.

Lemma validate_item_ok (it : Item) :
  THAEngine.validate_item tt it = Ok tt <-> item_shape_ok it.
Proof.
  unfold THAEngine.validate_item, item_shape_ok.
  destruct (length (it_hr it) <? 2)%nat eqn:E.
  - apply Nat.ltb_lt in E. split; [ discriminate | intros [H _]; lia ].
  - apply Nat.ltb_ge in E. destruct (it_bins it) as [bins|].
    + destruct (Nat.eqb (length bins) (length (it_hr it))) eqn:E2; cbn.
      * apply Nat.eqb_eq in E2. split; [ | reflexivity ].
        intros _. split; [ exact E | intros ? [= <-]; exact E2 ].
      * apply Nat.eqb_neq in E2. split; [ discriminate | ].
        intros [_ H]. destruct E2. apply H. reflexivity.
    + split; [ | reflexivity ]. intros _. split; [ exact E | discriminate ].
Qed.

Lemma validate_ok (domains : gmap string Caps) (items : list Item) :
  is_Ok (THAEngine._validate domains items) <->
  (forall d caps, domains !! d = Some caps -> caps_ok caps) /\
  (forall it, it ∈ items -> item_shape_ok it).
Proof.
  unfold THAEngine._validate.
  pose proof (for_each_checks THAEngine.validate_domain (map_to_list domains)) as Hd.
  pose proof (for_each_checks THAEngine.validate_item items) as Hi.
  rewrite Forall_forall in Hd. rewrite Forall_forall in Hi.
  split.
  - intros [u Hu]. inv_bind Hu. destruct a.
    split.
    + intros d caps Hl. apply validate_domain_ok with (d := d).
      apply Hd; [ eexists; eassumption | ].
      apply elem_of_map_to_list. exact Hl.
    + intros it Hin. apply validate_item_ok.
      apply Hi; [ eexists; eassumption | exact Hin ].
  - intros [H1 H2].
    assert (Hd' : is_Ok (for_each THAEngine.validate_domain (map_to_list domains) tt)).
    { apply Hd. intros [d caps] Hin. apply validate_domain_ok, (H1 d).
      apply elem_of_map_to_list. exact Hin. }
    destruct Hd' as [[] ->]. cbn.
    apply Hi. intros it Hin. apply validate_item_ok, H2, Hin.
Qed.

(** The constructor succeeds exactly on the configurations that pass its
    three checks; the engine it returns is determined by the configuration. *)
Lemma init_ok (cfg : Config) :
  is_Ok (THAEngine.__init__ cfg) <-> config_checks cfg.
Proof.
  unfold THAEngine.__init__, gompertz_b, config_checks.
  destruct (Qle_bool (cfg_mrdt_years cfg) 0) eqn:E; cbn.
  - apply Qle_bool_iff in E. split.
    + intros [? ?]; discriminate.
    + intros [H _]. exfalso. eapply Qlt_not_le; eassumption.
  - apply Qle_bool_false in E.
    pose proof (validate_ok (cfg_domains cfg) (sorted_by_order (cfg_items cfg))) as Hv.
    split.
    + intros [self Hself].
      destruct (THAEngine._validate _ _) as [[]|e] eqn:Ev; [ | discriminate ].
      destruct Hv as [Hv _]. destruct Hv as [H1 H2]; [ eexists; reflexivity | ].
      split; [ exact E | split; [ exact H1 | ] ].
      intros it Hin. apply H2, elem_of_sorted_by_order, Hin.
    + intros (_ & H1 & H2).
      destruct Hv as [_ Hv]. destruct Hv as [[] ->].
      * split; [ exact H1 | ]. intros it Hin. apply H2, elem_of_sorted_by_order, Hin.
      * cbn. eexists. reflexivity.
Qed.

Lemma init_inv (cfg : Config) (self : THAEngine.t) :
  THAEngine.__init__ cfg = Ok self ->
  config_checks cfg /\
  THAEngine.b self = (ln 2 / Q2R (cfg_mrdt_years cfg))%R /\
  THAEngine.domains self = cfg_domains cfg /\
  THAEngine.items self = sorted_by_order (cfg_items cfg) /\
  THAEngine.age_clamp_years self = default (10 # 1)%Q (cfg_age_clamp_years cfg).
Proof.
  intros H. split; [ apply init_ok; eexists; exact H | ].
  unfold THAEngine.__init__, gompertz_b in H.
  destruct (Qle_bool (cfg_mrdt_years cfg) 0); [ discriminate | ]. cbn in H.
  destruct (THAEngine._validate _ _); [ | discriminate ]. cbn in H.
  injection H as <-. cbn. auto.
Qed.

Lemma ln_2_pos : (0 < ln 2)%R.
Proof. rewrite <- ln_1. apply ln_increasing; lra. Qed.

Lemma Q2R_pos (q : Q) : (0 < q)%Q -> (0 < Q2R q)%R.
Proof. intros H. apply Qlt_Rlt in H. rewrite RMicromega.Q2R_0 in H. exact H. Qed.

Lemma init_b_pos (cfg : Config) (self : THAEngine.t) :
  THAEngine.__init__ cfg = Ok self -> (0 < THAEngine.b self)%R.
Proof.
  intros H. apply init_inv in H as ((Hm & _) & -> & _).
  apply Rdiv_lt_0_compat; [ apply ln_2_pos | apply Q2R_pos, Hm ].
Qed.

Lemma init_caps (cfg : Config) (self : THAEngine.t) (d : string) (caps : Caps) :
  THAEngine.__init__ cfg = Ok self ->
  THAEngine.domains self !! d = Some caps -> caps_ok caps.
Proof.
  intros H Hd. apply init_inv in H as ((_ & Hc & _) & _ & Hdom & _).
  rewrite Hdom in Hd. eapply Hc, Hd.
Qed.

(** ** The accumulation loop *)

Lemma dict_add_inv (d d' : gmap string R) (k : string) (x : R) :
  dict_add d k x = Ok d' ->
  exists v, d !! k = Some v /\ d' = <[k := (v + x)%R]> d.
Proof.
  unfold dict_add. destruct (d !! k) as [v|]; [ | discriminate ].
  intros [= <-]. eauto.
Qed.

Lemma dict_add_lookup (d d' : gmap string R) (k : string) (x : R) :
  dict_add d k x = Ok d' ->
  dom d' = dom d /\
  forall j v, d !! j = Some v ->
              d' !! j = Some (if String.eqb k j then v + x else v)%R.
Proof.
  intros H. apply dict_add_inv in H as (v0 & Hk & Hd'). subst d'. split.
  - apply dom_insert_lookup_L. eauto.
  - intros j v Hj. destruct (String.eqb_spec k j) as [<- | Hne].
    + rewrite lookup_insert_eq. congruence.
    + rewrite lookup_insert_ne by exact Hne. exact Hj.
Qed.

Lemma sum_terms_cons (f : Item -> R) (it : Item) (l : list Item) :
  sum_terms f (it :: l) = (f it + sum_terms f l)%R.
Proof. reflexivity. Qed.

Lemma sum_terms_le (f g : Item -> R) (l : list Item) :
  (forall it, it ∈ l -> (f it <= g it)%R) ->
  (sum_terms f l <= sum_terms g l)%R.
Proof.
  induction l as [|it l IH]; intros H.
  - cbn. lra.
  - rewrite !sum_terms_cons.
    assert (f it <= g it)%R by (apply H; left).
    assert (sum_terms f l <= sum_terms g l)%R by (apply IH; intros; apply H; right; assumption).
    lra.
Qed.

Section Loop.

Variable self : THAEngine.t.
Variable answers : gmap string Raw.

Lemma item_step_unscored (st : THAEngine.acc) (it : Item) :
  scored it = false -> THAEngine.item_step self answers st it = Ok st.
Proof.
  unfold scored, THAEngine.item_step. intros H.
  apply negb_false_iff in H. destruct st. rewrite H. reflexivity.
Qed.

Lemma item_step_scored (pd iy : gmap string R) (it : Item) :
  scored it = true ->
  THAEngine.item_step self answers (pd, iy) it =
    (lnhr <-- item_lnhr_of answers it ;;
     pd' <-- dict_add pd (it_domain it) lnhr ;;
     Ok (pd', <[it_id it := (lnhr / THAEngine.b self)%R]> iy)).
Proof.
  unfold scored, THAEngine.item_step, item_lnhr_of. intros H.
  apply negb_true_iff in H. rewrite H.
  destruct (_raw_to_bin it _); reflexivity.
Qed.

Lemma item_step_inv (pd iy pd' iy' : gmap string R) (it : Item) :
  THAEngine.item_step self answers (pd, iy) it = Ok (pd', iy') ->
  dom pd' = dom pd /\
  (forall d v, pd !! d = Some v -> pd' !! d = Some (v + item_term answers d it)%R) /\
  (scored it = false -> iy' = iy) /\
  (scored it = true ->
   exists x, item_lnhr_of answers it = Ok x /\
             is_Some (pd !! it_domain it) /\
             iy' = <[it_id it := (x / THAEngine.b self)%R]> iy).
Proof.
  intros H. destruct (scored it) eqn:Hs.
  - rewrite item_step_scored in H by exact Hs.
    inv_bind H. rename a into x. inv_bind H. injection H as <- <-.
    pose proof (dict_add_lookup _ _ _ _ Ha0) as [Hdom Hl].
    apply dict_add_inv in Ha0 as (v0 & Hv0 & _).
    split; [ exact Hdom | ]. split; [ | split; [ discriminate | eauto ] ].
    intros d v Hd. rewrite (Hl d v Hd). unfold item_term.
    rewrite Hs, Ha. cbn [andb value_or_zero].
    destruct (String.eqb (it_domain it) d); f_equal; lra.
  - rewrite item_step_unscored in H by exact Hs. injection H as <- <-.
    split; [ reflexivity | ]. split; [ | split; [ reflexivity | discriminate ] ].
    intros d v Hd. unfold item_term. rewrite Hs. cbn. rewrite Hd. f_equal. lra.
Qed.

(** The loop keeps the set of domains and adds, to each domain, the terms
    of the items it walks over. *)
Lemma loop_totals (l : list Item) (pd iy pd' iy' : gmap string R) :
  for_each (THAEngine.item_step self answers) l (pd, iy) = Ok (pd', iy') ->
  dom pd' = dom pd /\
  forall d v, pd !! d = Some v ->
              pd' !! d = Some (v + sum_terms (item_term answers d) l)%R.
Proof.
  revert pd iy. induction l as [|it l IH]; intros pd iy H; cbn in H.
  - injection H as <- <-. split; [ reflexivity | ].
    intros d v Hd. rewrite Hd. cbn. f_equal. lra.
  - inv_bind H. destruct a as [pd1 iy1].
    apply item_step_inv in Ha as (Hdom1 & Hl1 & _).
    apply IH in H as (Hdom & Hl). split; [ congruence | ].
    intros d v Hd. rewrite (Hl d _ (Hl1 d v Hd)), sum_terms_cons. f_equal. lra.
Qed.

(** A loop that succeeds has classified every scored item, found a
    positive hazard ratio for it, and found its domain. *)
Lemma loop_items_ok (l : list Item) (pd iy pd' iy' : gmap string R) :
  for_each (THAEngine.item_step self answers) l (pd, iy) = Ok (pd', iy') ->
  forall it, it ∈ l -> scored it = true ->
    is_Ok (item_lnhr_of answers it) /\ is_Some (pd !! it_domain it).
Proof.
  revert pd iy. induction l as [|it0 l IH]; intros pd iy H it Hin Hs; cbn in H.
  - inversion Hin.
  - inv_bind H. destruct a as [pd1 iy1].
    pose proof (item_step_inv _ _ _ _ _ Ha) as (Hdom1 & _ & _ & Hsc).
    apply elem_of_cons in Hin as [-> | Hin].
    + destruct (Hsc Hs) as (x & Hx & Hd & _). split; [ eexists; exact Hx | exact Hd ].
    + destruct (IH _ _ H it Hin Hs) as [H1 H2]. split; [ exact H1 | ].
      apply elem_of_dom. rewrite <- Hdom1. apply elem_of_dom. exact H2.
Qed.

(** [itemYears] is written only under the identifiers of scored items. *)
Lemma loop_item_years_other (l : list Item) (pd iy pd' iy' : gmap string R) (k : string) :
  for_each (THAEngine.item_step self answers) l (pd, iy) = Ok (pd', iy') ->
  (forall it, it ∈ l -> scored it = true -> it_id it <> k) ->
  iy' !! k = iy !! k.
Proof.
  revert pd iy. induction l as [|it0 l IH]; intros pd iy H Hk; cbn in H.
  - injection H as <- <-. reflexivity.
  - inv_bind H. destruct a as [pd1 iy1].
    pose proof (item_step_inv _ _ _ _ _ Ha) as (_ & _ & Hun & Hsc).
    rewrite (IH _ _ H) by (intros it Hin; apply Hk; right; exact Hin).
    destruct (scored it0) eqn:Hs.
    + destruct (Hsc eq_refl) as (x & _ & _ & ->).
      apply lookup_insert_ne, Hk; [ left | exact Hs ].
    + rewrite (Hun eq_refl). reflexivity.
Qed.

(** With distinct identifiers, the entry of a scored item is its own
    log hazard ratio divided by [b]. *)
Lemma loop_item_years_in (l : list Item) (pd iy pd' iy' : gmap string R) (it : Item) :
  for_each (THAEngine.item_step self answers) l (pd, iy) = Ok (pd', iy') ->
  NoDup (it_id <$> l) ->
  it ∈ l -> scored it = true ->
  exists x, item_lnhr_of answers it = Ok x /\
            iy' !! it_id it = Some (x / THAEngine.b self)%R.
Proof.
  revert pd iy. induction l as [|it0 l IH]; intros pd iy H Hnd Hin Hs; cbn in H.
  - inversion Hin.
  - inv_bind H. destruct a as [pd1 iy1].
    rewrite fmap_cons in Hnd. apply NoDup_cons in Hnd as [Hnotin Hnd].
    apply elem_of_cons in Hin as [-> | Hin].
    + apply item_step_inv in Ha as (_ & _ & _ & Hsc).
      destruct (Hsc Hs) as (x & Hx & _ & ->). exists x. split; [ exact Hx | ].
      rewrite (loop_item_years_other _ _ _ _ _ _ H).
      * apply lookup_insert_eq.
      * intros it' Hin' _ Heq. apply Hnotin. rewrite <- Heq.
        apply list_elem_of_fmap. eauto.
    + eapply IH; eassumption.
Qed.

(** ** The BMI step *)

Lemma bmi_step_inv (pd iy pd' iy' : gmap string R) :
  THAEngine.bmi_step self answers (pd, iy) = Ok (pd', iy') ->
  dom pd' = dom pd /\
  (forall d v, pd !! d = Some v -> pd' !! d = Some (v + bmi_term answers d)%R) /\
  (bmi_present answers = false -> iy' = iy) /\
  (bmi_present answers = true ->
   exists x, bmi_lnhr_of answers = Ok x /\
             is_Some (pd !! "body") /\
             iy' = <["bmi_calculated" := (x / THAEngine.b self)%R]> iy).
Proof.
  intros H.
  assert (Hcases :
    (bmi_present answers = false /\ pd' = pd /\ iy' = iy) \/
    (bmi_present answers = true /\
     exists x, bmi_lnhr_of answers = Ok x /\ dict_add pd "body" x = Ok pd' /\
               iy' = <["bmi_calculated" := (x / THAEngine.b self)%R]> iy)).
  { unfold THAEngine.bmi_step, bmi_present, bmi_lnhr_of in *.
    destruct (answers_get answers "height"), (answers_get answers "weight");
      try (left; injection H as <- <-; auto; fail);
      right; (split; [ reflexivity | ]);
      inv_bind H; inv_bind H; injection H as <- <-;
      rewrite Ha; cbn; eauto. }
  destruct Hcases as [(Hp & -> & ->) | (Hp & x & Hx & Hadd & ->)].
  - split; [ reflexivity | ]. split; [ | split; [ reflexivity | congruence ] ].
    intros d v Hd. unfold bmi_term. rewrite Hp. cbn. rewrite Hd. f_equal. lra.
  - pose proof (dict_add_lookup _ _ _ _ Hadd) as [Hdom Hl].
    apply dict_add_inv in Hadd as (v0 & Hv0 & _).
    split; [ exact Hdom | ]. split; [ | split; [ congruence | eauto ] ].
    intros d v Hd. rewrite (Hl d v Hd). unfold bmi_term. rewrite Hp, Hx.
    cbn [andb value_or_zero].
    destruct (String.eqb "body" d); f_equal; lra.
Qed.

End Loop.

(** ** The caps *)

Lemma clamp_lower (lo hi x : R) : (lo <= clamp lo hi x)%R.
Proof. unfold clamp. apply Rmax_l. Qed.

Lemma clamp_upper (lo hi x : R) : (lo <= hi)%R -> (clamp lo hi x <= hi)%R.
Proof. intros H. unfold clamp. apply Rmax_lub; [ exact H | apply Rmin_l ]. Qed.

Lemma clamp_mono (lo hi x y : R) : (x <= y)%R -> (clamp lo hi x <= clamp lo hi y)%R.
Proof.
  intros H. unfold clamp.
  apply Rle_max_compat_l, Rle_min_compat_l, H.
Qed.

Section Caps.

Variable self : THAEngine.t.

Lemma clamp_entry_inv (d : string) (v : R) (y : string * R) :
  THAEngine.clamp_entry self (d, v) = Ok y ->
  exists caps lo hi,
    THAEngine.domains self !! d = Some caps /\
    ln_cap_lo caps = Some lo /\ ln_cap_hi caps = Some hi /\
    y = (d, clamp (Q2R lo) (Q2R hi) v).
Proof.
  unfold THAEngine.clamp_entry.
  destruct (THAEngine.domains self !! d) as [caps|]; [ | discriminate ].
  destruct (ln_cap_lo caps) as [lo|] eqn:Elo, (ln_cap_hi caps) as [hi|] eqn:Ehi;
    try discriminate.
  intros [= <-]. exists caps, lo, hi. auto.
Qed.

Lemma clamp_entries_inv (l cl : list (string * R)) :
  THAEngine.clamp_entries self l = Ok cl ->
  Forall2 (fun x y => THAEngine.clamp_entry self x = Ok y) l cl.
Proof.
  revert cl. induction l as [|x l IH]; intros cl H; cbn in H.
  - injection H as <-. constructor.
  - inv_bind H. inv_bind H. injection H as <-. constructor; auto.
Qed.

Lemma clamp_entries_keys (l cl : list (string * R)) :
  THAEngine.clamp_entries self l = Ok cl -> cl.*1 = l.*1.
Proof.
  intros H. apply clamp_entries_inv in H.
  induction H as [|[d v] y l cl Hxy _ IH]; [ reflexivity | ].
  apply clamp_entry_inv in Hxy as (? & ? & ? & _ & _ & _ & ->).
  cbn. f_equal. exact IH.
Qed.

(** After the clamp loop every total has been replaced by its clamped
    value, under the same key. *)
Lemma clamped_lookup (pd : gmap string R) (cl : list (string * R)) (d : string) (v : R) :
  THAEngine.clamp_entries self (map_to_list pd) = Ok cl ->
  pd !! d = Some v ->
  exists caps lo hi,
    THAEngine.domains self !! d = Some caps /\
    ln_cap_lo caps = Some lo /\ ln_cap_hi caps = Some hi /\
    (list_to_map cl : gmap string R) !! d = Some (clamp (Q2R lo) (Q2R hi) v).
Proof.
  intros H Hd.
  pose proof (clamp_entries_keys _ _ H) as Hkeys.
  apply clamp_entries_inv in H.
  apply elem_of_map_to_list, list_elem_of_lookup in Hd as [i Hi].
  destruct (Forall2_lookup_l _ _ _ _ _ H Hi) as (y & Hy & Hxy).
  apply clamp_entry_inv in Hxy as (caps & lo & hi & H1 & H2 & H3 & ->).
  exists caps, lo, hi. repeat (split; [ assumption | ]).
  apply elem_of_list_to_map_1.
  - rewrite Hkeys. apply NoDup_fst_map_to_list.
  - apply list_elem_of_lookup. eauto.
Qed.

Lemma clamped_dom (pd : gmap string R) (cl : list (string * R)) :
  THAEngine.clamp_entries self (map_to_list pd) = Ok cl ->
  dom (list_to_map cl : gmap string R) = dom pd.
Proof.
  intros H. apply clamp_entries_keys in H.
  rewrite dom_list_to_map_L, H. symmetry. apply leibniz_equiv, dom_alt.
Qed.

End Caps.

(** ** One evaluation *)

Section Evaluation.

Variable self : THAEngine.t.
Variable answers : gmap string Raw.

Lemma domain_totals_inv (pd iy : gmap string R) :
  THAEngine.domain_totals self answers = Ok (pd, iy) ->
  exists st0 pdu cl,
    THAEngine.bmi_step self answers (THAEngine.init_acc self) = Ok st0 /\
    for_each (THAEngine.item_step self answers) (THAEngine.items self) st0 = Ok (pdu, iy) /\
    THAEngine.clamp_entries self (map_to_list pdu) = Ok cl /\
    pd = list_to_map cl.
Proof.
  unfold THAEngine.domain_totals. intros H.
  inv_bind H. rename a into st0. inv_bind H. destruct a as [pdu iy0].
  inv_bind H. injection H as <- <-. eauto 8.
Qed.

Lemma init_acc_lookup (d : string) (caps : Caps) :
  THAEngine.domains self !! d = Some caps ->
  (THAEngine.init_acc self).1 !! d = Some 0%R.
Proof. intros H. cbn. rewrite lookup_fmap, H. reflexivity. Qed.

(** The totals returned for the domains: each is the clamped sum of the
    BMI term and of the terms of all items. *)
Lemma domain_totals_spec (pd iy : gmap string R) :
  THAEngine.domain_totals self answers = Ok (pd, iy) ->
  dom pd = dom (THAEngine.domains self) /\
  forall d caps,
    THAEngine.domains self !! d = Some caps ->
    exists lo hi,
      ln_cap_lo caps = Some lo /\ ln_cap_hi caps = Some hi /\
      pd !! d = Some (clamp (Q2R lo) (Q2R hi) (spec_unclamped_total self answers d)).
Proof.
  intros H. apply domain_totals_inv in H as ([pd0 iy0] & pdu & cl & Hb & Hl & Hc & ->).
  apply bmi_step_inv in Hb as (Hdom0 & Hl0 & _).
  apply loop_totals in Hl as (Hdom1 & Hl1).
  split.
  - rewrite (clamped_dom _ _ _ Hc), Hdom1, Hdom0. cbn. apply dom_fmap_L.
  - intros d caps Hd.
    pose proof (Hl1 d _ (Hl0 d _ (init_acc_lookup d caps Hd))) as Hu.
    destruct (clamped_lookup _ _ _ _ _ Hc Hu) as (caps' & lo & hi & Hd' & Hlo & Hhi & Hv).
    assert (caps' = caps) by congruence. subst caps'.
    exists lo, hi. split; [ exact Hlo | ]. split; [ exact Hhi | ].
    rewrite Hv. f_equal. f_equal. unfold spec_unclamped_total. lra.
Qed.

(** What [itemYears] holds after an evaluation. *)
Lemma domain_totals_item_years_other (pd iy : gmap string R) (k : string) :
  THAEngine.domain_totals self answers = Ok (pd, iy) ->
  (forall it, it ∈ THAEngine.items self -> scored it = true -> it_id it <> k) ->
  k <> "bmi_calculated" \/ bmi_present answers = false ->
  iy !! k = None.
Proof.
  intros H Hk Hb. apply domain_totals_inv in H as ([pd0 iy0] & pdu & cl & Hb0 & Hl & _).
  rewrite (loop_item_years_other _ _ _ _ _ _ _ _ Hl Hk).
  apply bmi_step_inv in Hb0 as (_ & _ & Habs & Hpres).
  destruct (bmi_present answers) eqn:Hp.
  - destruct (Hpres eq_refl) as (x & _ & _ & ->).
    destruct Hb as [Hne | ?]; [ | discriminate ].
    rewrite lookup_insert_ne by congruence. apply lookup_empty.
  - rewrite (Habs eq_refl). apply lookup_empty.
Qed.

Lemma domain_totals_item_years_bmi (pd iy : gmap string R) :
  THAEngine.domain_totals self answers = Ok (pd, iy) ->
  (forall it, it ∈ THAEngine.items self -> scored it = true ->
              it_id it <> "bmi_calculated") ->
  bmi_present answers = true ->
  exists x, bmi_lnhr_of answers = Ok x /\
            is_Some (THAEngine.domains self !! "body") /\
            iy !! "bmi_calculated" = Some (x / THAEngine.b self)%R.
Proof.
  intros H Hk Hp. apply domain_totals_inv in H as ([pd0 iy0] & pdu & cl & Hb0 & Hl & _).
  rewrite (loop_item_years_other _ _ _ _ _ _ _ _ Hl Hk).
  apply bmi_step_inv in Hb0 as (_ & _ & _ & Hpres).
  destruct (Hpres Hp) as (x & Hx & Hbody & ->).
  exists x. split; [ exact Hx | ]. split; [ | apply lookup_insert_eq ].
  cbn in Hbody. rewrite lookup_fmap in Hbody.
  destruct (THAEngine.domains self !! "body"); [ eauto | ].
  destruct Hbody as [? Hbody]. discriminate.
Qed.

Lemma domain_totals_item_years_in (pd iy : gmap string R) (it : Item) :
  THAEngine.domain_totals self answers = Ok (pd, iy) ->
  NoDup (it_id <$> THAEngine.items self) ->
  it ∈ THAEngine.items self -> scored it = true ->
  exists x, item_lnhr_of answers it = Ok x /\
            is_Some (THAEngine.domains self !! it_domain it) /\
            iy !! it_id it = Some (x / THAEngine.b self)%R.
Proof.
  intros H Hnd Hin Hs.
  apply domain_totals_inv in H as ([pd0 iy0] & pdu & cl & Hb0 & Hl & _).
  destruct (loop_item_years_in _ _ _ _ _ _ _ _ Hl Hnd Hin Hs) as (x & Hx & Hy).
  destruct (loop_items_ok _ _ _ _ _ _ _ Hl it Hin Hs) as [_ Hd].
  apply bmi_step_inv in Hb0 as (Hdom0 & _).
  exists x. split; [ exact Hx | ]. split; [ | exact Hy ].
  apply elem_of_dom in Hd. rewrite Hdom0 in Hd. cbn in Hd.
  rewrite dom_fmap_L in Hd. apply elem_of_dom in Hd. exact Hd.
Qed.

Lemma compute_inv (age : Q) (r : THAResult) :
  THAEngine.compute self age answers = Ok r ->
  exists pd iy,
    THAEngine.domain_totals self answers = Ok (pd, iy) /\
    domainYears r = (fun val => (val / THAEngine.b self)%R) <$> pd /\
    itemYears r = iy /\
    AgeAccel r =
      Rmax (- Q2R (THAEngine.age_clamp_years self))
           (Rmin (Q2R (THAEngine.age_clamp_years self))
                 (fold_left Rplus (map_to_list pd).*2 0%R / THAEngine.b self)) /\
    THA r = (Q2R age + AgeAccel r)%R.
Proof.
  unfold THAEngine.compute. intros H. inv_bind H. destruct a as [pd iy].
  injection H as <-. exists pd, iy. cbn. auto.
Qed.

Lemma compute_fails (age : Q) (e : exn) :
  THAEngine.domain_totals self answers = Err e ->
  THAEngine.compute self age answers = Err e.
Proof. unfold THAEngine.compute. intros ->. reflexivity. Qed.

(** An error raised by the step of an item the loop reaches is the
    outcome of the evaluation. *)
Lemma compute_fails_at (age : Q) (it : Item) (st : THAEngine.acc) (e : exn) :
  reaches self answers it st ->
  THAEngine.item_step self answers st it = Err e ->
  THAEngine.compute self age answers = Err e.
Proof.
  intros (l1 & l2 & st0 & Hitems & Hb & Hl) He.
  apply compute_fails. unfold THAEngine.domain_totals.
  rewrite Hb. cbn. rewrite Hitems.
  rewrite (for_each_fails_at _ _ _ _ _ _ _ Hl He). reflexivity.
Qed.

End Evaluation.

(** ** Running the example *)

Ltac run_engine :=
  with_strategy transparent [gmap_empty]
    (lazy -[Rplus Rmult Rminus Rdiv Ropp Rinv Rmax Rmin ln Q2R IZR clamp]).

Lemma demo_engine_init : THAEngine.__init__ demo_cfg = Ok demo_engine.
Proof. run_engine. reflexivity. Qed.

Lemma demo_compute :
  exists r, THAEngine.compute demo_engine (40 # 1) demo_answers = Ok r.
Proof. eexists. run_engine. reflexivity. Qed.

(** * Properties of one evaluation *)

Lemma age_accel_lower (self : THAEngine.t) (age : Q) (answers : gmap string Raw)
      (r : THAResult) :
  THAEngine.compute self age answers = Ok r ->
  (- Q2R (THAEngine.age_clamp_years self) <= AgeAccel r)%R.
Proof.
  intros H. apply compute_inv in H as (pd & iy & _ & _ & _ & -> & _).
  apply Rmax_l.
Qed.

(** C4 (as amended).  Whenever compute succeeds, THA is the chronological
    age plus AgeAccel and AgeAccel is at least -age_clamp_years; when
    age_clamp_years is not negative, AgeAccel is also at most
    age_clamp_years. *)
Theorem C4_age_accel_within_clamp (self : THAEngine.t) (age : Q)
        (answers : gmap string Raw) (r : THAResult) :
  THAEngine.compute self age answers = Ok r ->
  THA r = (Q2R age + AgeAccel r)%R /\
  (- Q2R (THAEngine.age_clamp_years self) <= AgeAccel r)%R /\
  ((0 <= THAEngine.age_clamp_years self)%Q ->
   (AgeAccel r <= Q2R (THAEngine.age_clamp_years self))%R).
Proof.
  intros H. pose proof (age_accel_lower _ _ _ _ H) as Hlo.
  apply compute_inv in H as (pd & iy & _ & _ & _ & Hacc & Htha).
  split; [ exact Htha | ]. split; [ exact Hlo | ].
  intros Hc. apply Qle_Rle in Hc. rewrite RMicromega.Q2R_0 in Hc.
  rewrite Hacc. apply Rmax_lub; [ lra | apply Rmin_l ].
Qed.

Lemma C4_age_accel_witness :
  exists r, THAEngine.compute demo_engine (40 # 1) demo_answers = Ok r /\
            THA r = (Q2R (40 # 1) + AgeAccel r)%R /\
            (- Q2R (10 # 1) <= AgeAccel r <= Q2R (10 # 1))%R.
Proof.
  destruct demo_compute as [r Hr]. exists r. split; [ exact Hr | ].
  destruct (C4_age_accel_within_clamp demo_engine (40 # 1) demo_answers r Hr)
    as (H1 & H2 & H3).
  split; [ exact H1 | ]. split; [ exact H2 | ].
  apply H3. vm_compute. discriminate.
Defined.

Lemma negative_clamp_engine_init :
  THAEngine.__init__ negative_clamp_cfg = Ok negative_clamp_engine.
Proof. run_engine. reflexivity. Qed.

Lemma negative_clamp_compute :
  exists r, THAEngine.compute negative_clamp_engine (40 # 1) ∅ = Ok r.
Proof. eexists. run_engine. reflexivity. Qed.

(** C4, as stated, fails for a negative age_clamp_years: the constructor
    accepts the configuration, compute succeeds, and AgeAccel is 1 while
    the claimed interval is [1, -1]. *)
Lemma C4_negative_clamp_counterexample :
  THAEngine.__init__ negative_clamp_cfg = Ok negative_clamp_engine /\
  exists r,
    THAEngine.compute negative_clamp_engine (40 # 1) ∅ = Ok r /\
    AgeAccel r = 1%R /\
    ~ (- Q2R (THAEngine.age_clamp_years negative_clamp_engine) <= AgeAccel r
       <= Q2R (THAEngine.age_clamp_years negative_clamp_engine))%R.
Proof.
  split; [ exact negative_clamp_engine_init | ].
  destruct negative_clamp_compute as [r Hr]. exists r. split; [ exact Hr | ].
  apply compute_inv in Hr as (pd & iy & _ & _ & _ & -> & _).
  cbn [THAEngine.age_clamp_years negative_clamp_engine].
  assert (Hq : Q2R (-1 # 1) = (-1)%R) by (unfold Q2R; cbn [Qnum Qden]; lra).
  rewrite Hq.
  match goal with |- context [Rmin (-1) ?x] => generalize x end. intros x.
  assert (Hmin : (Rmin (-1) x <= -1)%R) by apply Rmin_l.
  assert (Hmax : Rmax (- -1) (Rmin (-1) x) = 1%R)
    by (rewrite Rmax_left; lra).
  rewrite Hmax. split; [ reflexivity | lra ].
Qed.

(** C5.  For an engine the constructor returned, every configured domain
    and every successful evaluation: the total of the domain after the
    caps lies in [ln_cap_lo, ln_cap_hi], and it is the clamp, applied
    once, of the sum of all the contributions to the domain (the BMI term
    and the log hazard ratios of its scored items); the domain's years are
    that total divided by b. *)
Theorem C5_domain_total_within_caps (cfg : Config) (self : THAEngine.t) (age : Q)
        (answers : gmap string Raw) (r : THAResult) (d : string) (caps : Caps) :
  THAEngine.__init__ cfg = Ok self ->
  THAEngine.compute self age answers = Ok r ->
  THAEngine.domains self !! d = Some caps ->
  exists lo hi pd iy total,
    ln_cap_lo caps = Some lo /\ ln_cap_hi caps = Some hi /\
    THAEngine.domain_totals self answers = Ok (pd, iy) /\
    pd !! d = Some total /\
    total = clamp (Q2R lo) (Q2R hi) (spec_unclamped_total self answers d) /\
    (Q2R lo <= total <= Q2R hi)%R /\
    domainYears r !! d = Some (total / THAEngine.b self)%R.
Proof.
  intros Hinit Hr Hd.
  apply compute_inv in Hr as (pd & iy & Ht & Hdy & _).
  destruct (domain_totals_spec _ _ _ _ Ht) as [_ Hspec].
  destruct (Hspec d caps Hd) as (lo & hi & Hlo & Hhi & Hpd).
  destruct (init_caps _ _ _ _ Hinit Hd) as (lo' & hi' & Hlo' & Hhi' & Hle).
  assert (lo' = lo) by congruence. assert (hi' = hi) by congruence. subst lo' hi'.
  apply Qle_Rle in Hle.
  exists lo, hi, pd, iy, (clamp (Q2R lo) (Q2R hi) (spec_unclamped_total self answers d)).
  repeat (split; [ first [ assumption | reflexivity ] | ]).
  split.
  - split; [ apply clamp_lower | apply clamp_upper, Hle ].
  - rewrite Hdy, lookup_fmap, Hpd. reflexivity.
Qed.

Lemma C5_domain_total_witness :
  exists r total,
    THAEngine.compute demo_engine (40 # 1) demo_answers = Ok r /\
    (Q2R (-1 # 2) <= total <= Q2R (1 # 2))%R /\
    domainYears r !! "body" = Some (total / THAEngine.b demo_engine)%R.
Proof.
  destruct demo_compute as [r Hr].
  destruct (C5_domain_total_within_caps demo_cfg demo_engine (40 # 1) demo_answers r
              "body" (mk_caps (-1 # 2) (1 # 2)) demo_engine_init Hr eq_refl)
    as (lo & hi & pd & iy & total & Hlo & Hhi & _ & _ & _ & Hb & Hy).
  injection Hlo as <-. injection Hhi as <-.
  exists r, total. split; [ exact Hr | ]. split; [ exact Hb | exact Hy ].
Defined.

(** * What-if *)

(** C8.  Whenever compute succeeds on the baseline, what_if with an empty
    change set returns delta_years = 0 and new_THA = old_THA; for any
    change set, the proposed answers evaluated are the shallow merge: the
    changed value where there is one, the baseline value elsewhere. *)
Theorem C8_what_if_round_trip (self : THAEngine.t) (age : Q)
        (answers : gmap string Raw) (r : THAResult) :
  THAEngine.compute self age answers = Ok r ->
  (exists w, THAEngine.what_if self age answers ∅ = Ok w /\
             delta_years w = 0%R /\ new_THA w = old_THA w) /\
  (forall changes : gmap string Raw,
     exists proposed : gmap string Raw,
       (forall k, proposed !! k =
                  match changes !! k with
                  | Some v => Some v
                  | None => answers !! k
                  end) /\
       THAEngine.what_if self age answers changes =
         (new <-- THAEngine.compute self age proposed ;;
          Ok {| delta_years := (AgeAccel new - AgeAccel r)%R;
                new_THA := THA new;
                old_THA := THA r |})).
Proof.
  intros Hr. split.
  - unfold THAEngine.what_if. rewrite (left_id_L ∅ (∪) answers), Hr. cbn.
    eexists. split; [ reflexivity | ]. cbn. split; [ lra | reflexivity ].
  - intros changes. exists (changes ∪ answers). split.
    + intros k. rewrite lookup_union.
      destruct (changes !! k), (answers !! k); reflexivity.
    + unfold THAEngine.what_if. rewrite Hr. reflexivity.
Qed.

Lemma C8_what_if_witness :
  exists w, THAEngine.what_if demo_engine (40 # 1) demo_answers ∅ = Ok w /\
            delta_years w = 0%R /\ new_THA w = old_THA w.
Proof.
  destruct demo_compute as [r Hr].
  exact (proj1 (C8_what_if_round_trip demo_engine (40 # 1) demo_answers r Hr)).
Defined.

(** * Errors that surface only during an evaluation *)



Lemma item_lnhr_selected (answers : gmap string Raw) (it : Item)
      (bin : option Z) (hr : Q) :
  _raw_to_bin it (answers_get answers (it_id it)) = Ok bin ->
  selected_hr it bin = Ok hr ->
  item_lnhr_of answers it =
    if Qle_bool hr 0 then Err (HRNotPositive (it_id it)) else Ok (ln (Q2R hr)).
Proof.
  unfold item_lnhr_of, THAEngine._item_lnhr, selected_hr.
  intros -> Hsel. cbn. destruct bin; rewrite Hsel; reflexivity.
Qed.

Lemma item_step_fails (self : THAEngine.t) (answers : gmap string Raw)
      (st : THAEngine.acc) (it : Item) (e : exn) :
  scored it = true ->
  item_lnhr_of answers it = Err e ->
  THAEngine.item_step self answers st it = Err e.
Proof.
  intros Hs He. destruct st as [pd iy].
  rewrite item_step_scored by exact Hs. rewrite He. reflexivity.
Qed.







(** ** The BMI step on numeric answers *)

Lemma bmi_step_present (self : THAEngine.t) (answers : gmap string Raw)
      (pd iy : gmap string R) :
  bmi_present answers = true ->
  THAEngine.bmi_step self answers (pd, iy) =
    (x <-- bmi_lnhr_of answers ;;
     pd' <-- dict_add pd "body" x ;;
     Ok (pd', <["bmi_calculated" := (x / THAEngine.b self)%R]> iy)).
Proof.
  unfold bmi_present, THAEngine.bmi_step, bmi_lnhr_of.
  destruct (answers_get answers "height") eqn:Eh,
           (answers_get answers "weight") eqn:Ew;
    intros Hp; try discriminate Hp;
    match goal with
    | |- context [THAEngine._calculate_bmi ?a ?b ?c ?d] =>
      destruct (THAEngine._calculate_bmi a b c d)
    end; reflexivity.
Qed.

Lemma bmi_present_numeric (answers : gmap string Raw) (h w : Q) :
  THAEngine.as_number (answers_get answers "height") = Ok h ->
  THAEngine.as_number (answers_get answers "weight") = Ok w ->
  bmi_present answers = true.
Proof.
  unfold bmi_present.
  destruct (answers_get answers "height"), (answers_get answers "weight");
    intros Hh Hw; try discriminate; reflexivity.
Qed.

Lemma height_m_positive (h : Q) :
  (0 < h)%Q -> Qle_bool (h * (254 # 100) / (100 # 1)) 0 = false.
Proof.
  intros Hh. apply Qle_bool_false.
  destruct h as [n d]. unfold Qlt in *. cbn in *. lia.
Qed.

(** With inches and pounds, [_calculate_bmi] returns no BMI for a
    non-positive height or weight and the metric BMI otherwise. *)
Lemma calculate_bmi_numeric (hraw wraw : Raw) (h w : Q) :
  THAEngine.as_number hraw = Ok h ->
  THAEngine.as_number wraw = Ok w ->
  THAEngine._calculate_bmi hraw wraw "in" "lbs" =
    Ok (if Qle_bool h 0 || Qle_bool w 0 then None else Some (imperial_bmi h w)).
Proof.
  intros Hh Hw.
  assert (Hcalc : THAEngine._calculate_bmi hraw wraw "in" "lbs" =
    (if Qle_bool h 0 then Ok None else
     if Qle_bool w 0 then Ok None else
     if Qle_bool (h * (254 # 100) / (100 # 1)) 0 then Ok None
     else Ok (Some (imperial_bmi h w)))).
  { unfold THAEngine._calculate_bmi.
    destruct hraw; try discriminate Hh; destruct wraw; try discriminate Hw;
      cbn in Hh, Hw; injection Hh as <-; injection Hw as <-; cbn [bind THAEngine.as_number];
      destruct (Qle_bool _ 0); try reflexivity;
      destruct (Qle_bool _ 0); reflexivity. }
  rewrite Hcalc. destruct (Qle_bool h 0) eqn:E1; [ reflexivity | ].
  destruct (Qle_bool w 0); [ reflexivity | ].
  rewrite height_m_positive by (apply Qle_bool_false, E1). reflexivity.
Qed.

(** ** Domains that are not configured *)






(** * Derived-metric preprocessing *)

Lemma bmi_to_lnhr_spec (h w : Q) :
  exists hr,
    spec_bmi_hazard_ratio h w hr /\
    THAEngine._bmi_to_lnhr
      (if Qle_bool h 0 || Qle_bool w 0 then None else Some (imperial_bmi h w))
    = ln (Q2R hr).
Proof.
  unfold spec_bmi_hazard_ratio.
  destruct (Qle_bool h 0) eqn:Eh.
  { apply Qle_bool_iff in Eh. exists (105 # 100)%Q. split; [ left; auto | reflexivity ]. }
  destruct (Qle_bool w 0) eqn:Ew.
  { apply Qle_bool_iff in Ew. exists (105 # 100)%Q. split; [ left; auto | reflexivity ]. }
  apply Qle_bool_false in Eh, Ew. cbn [orb THAEngine._bmi_to_lnhr].
  destruct (Qlt_bool (imperial_bmi h w) (185 # 10)) eqn:E1.
  { apply Qlt_bool_true in E1. exists (120 # 100)%Q.
    split; [ right; auto 10 | reflexivity ]. }
  apply Qlt_bool_false in E1.
  destruct (Qlt_bool (imperial_bmi h w) (25 # 1)) eqn:E2.
  { apply Qlt_bool_true in E2. exists (100 # 100)%Q.
    split; [ right; auto 10 | reflexivity ]. }
  apply Qlt_bool_false in E2.
  destruct (Qlt_bool (imperial_bmi h w) (30 # 1)) eqn:E3.
  { apply Qlt_bool_true in E3. exists (115 # 100)%Q.
    split; [ right; auto 10 | reflexivity ]. }
  apply Qlt_bool_false in E3.
  destruct (Qlt_bool (imperial_bmi h w) (35 # 1)) eqn:E4.
  { apply Qlt_bool_true in E4. exists (140 # 100)%Q.
    split; [ right; auto 10 | reflexivity ]. }
  apply Qlt_bool_false in E4. exists (180 # 100)%Q.
  split; [ right; auto 10 | reflexivity ].
Qed.

Lemma compute_domain_years (self : THAEngine.t) (age : Q) (answers : gmap string Raw)
      (r : THAResult) (d : string) (caps : Caps) :
  THAEngine.compute self age answers = Ok r ->
  THAEngine.domains self !! d = Some caps ->
  exists lo hi,
    ln_cap_lo caps = Some lo /\ ln_cap_hi caps = Some hi /\
    domainYears r !! d =
      Some (clamp (Q2R lo) (Q2R hi) (spec_unclamped_total self answers d)
            / THAEngine.b self)%R.
Proof.
  intros Hr Hd. apply compute_inv in Hr as (pd & iy & Ht & -> & _).
  destruct (domain_totals_spec _ _ _ _ Ht) as [_ Hspec].
  destruct (Hspec d caps Hd) as (lo & hi & Hlo & Hhi & Hpd).
  exists lo, hi. rewrite lookup_fmap, Hpd. auto.
Qed.

(** Both answers are numbers: the BMI category decides the term. *)
Lemma bmi_numeric_effect (self : THAEngine.t) (age : Q) (answers : gmap string Raw)
      (r : THAResult) (h w : Q) :
  THAEngine.compute self age answers = Ok r ->
  (forall it, it ∈ THAEngine.items self -> scored it = true ->
              it_id it <> "bmi_calculated") ->
  THAEngine.as_number (answers_get answers "height") = Ok h ->
  THAEngine.as_number (answers_get answers "weight") = Ok w ->
  exists hr caps lo hi,
    spec_bmi_hazard_ratio h w hr /\
    itemYears r !! "bmi_calculated" = Some (ln (Q2R hr) / THAEngine.b self)%R /\
    THAEngine.domains self !! "body" = Some caps /\
    ln_cap_lo caps = Some lo /\ ln_cap_hi caps = Some hi /\
    domainYears r !! "body" =
      Some (clamp (Q2R lo) (Q2R hi)
                  (ln (Q2R hr) + sum_terms (item_term answers "body") (THAEngine.items self))
            / THAEngine.b self)%R.
Proof.
  intros Hr Hids Hh Hw.
  pose proof (bmi_present_numeric _ _ _ Hh Hw) as Hp.
  destruct (bmi_to_lnhr_spec h w) as (hr & Hspec & Hln).
  assert (Hbmi : bmi_lnhr_of answers = Ok (ln (Q2R hr))).
  { unfold bmi_lnhr_of. rewrite (calculate_bmi_numeric _ _ _ _ Hh Hw). cbn.
    rewrite Hln. reflexivity. }
  pose proof Hr as Hr'.
  apply compute_inv in Hr' as (pd & iy & Ht & _ & Hiy & _).
  destruct (domain_totals_item_years_bmi _ _ _ _ Ht Hids Hp)
    as (x & Hx & [caps Hbody] & Hy).
  assert (x = ln (Q2R hr)) by congruence. subst x.
  destruct (compute_domain_years _ _ _ _ _ _ Hr Hbody) as (lo & hi & Hlo & Hhi & Hdy).
  exists hr, caps, lo, hi.
  split; [ exact Hspec | ]. split; [ rewrite Hiy; exact Hy | ].
  split; [ exact Hbody | ]. split; [ exact Hlo | ]. split; [ exact Hhi | ].
  rewrite Hdy. unfold spec_unclamped_total, bmi_term.
  rewrite Hp, Hbmi. reflexivity.
Qed.

(** One of the two answers is missing: nothing is added. *)
Lemma bmi_absent_effect (self : THAEngine.t) (age : Q) (answers : gmap string Raw)
      (r : THAResult) :
  THAEngine.compute self age answers = Ok r ->
  (forall it, it ∈ THAEngine.items self -> scored it = true ->
              it_id it <> "bmi_calculated") ->
  answers_get answers "height" = RNone \/ answers_get answers "weight" = RNone ->
  itemYears r !! "bmi_calculated" = None /\
  forall caps lo hi,
    THAEngine.domains self !! "body" = Some caps ->
    ln_cap_lo caps = Some lo -> ln_cap_hi caps = Some hi ->
    domainYears r !! "body" =
      Some (clamp (Q2R lo) (Q2R hi)
                  (sum_terms (item_term answers "body") (THAEngine.items self))
            / THAEngine.b self)%R.
Proof.
  intros Hr Hids Habs.
  assert (Hp : bmi_present answers = false).
  { unfold bmi_present. destruct Habs as [-> | ->]; [ reflexivity | ].
    destruct (answers_get answers "height"); reflexivity. }
  pose proof Hr as Hr'.
  apply compute_inv in Hr' as (pd & iy & Ht & _ & Hiy & _).
  split.
  - rewrite Hiy. apply (domain_totals_item_years_other _ _ _ _ _ Ht Hids). auto.
  - intros caps lo hi Hbody Hlo Hhi.
    destruct (compute_domain_years _ _ _ _ _ _ Hr Hbody) as (lo' & hi' & Hlo' & Hhi' & Hdy).
    assert (lo' = lo) by congruence. assert (hi' = hi) by congruence. subst lo' hi'.
    rewrite Hdy. unfold spec_unclamped_total, bmi_term. rewrite Hp.
    cbn [andb]. rewrite Rplus_0_l. reflexivity.
Qed.

(** C3 (as amended).  In a successful evaluation of an engine none of
    whose scored items is named "bmi_calculated": when the height and
    weight answers are both numbers, the log of a hazard ratio is added to
    the "body" domain and recorded, divided by b, under "bmi_calculated";
    that ratio is 1.05 when height or weight is not positive and otherwise
    1.20, 1.00, 1.15, 1.40 or 1.80 by the category of the BMI computed from
    inches and pounds (below 18.5, 25, 30, 35, or from 35 up).  When
    either answer is missing nothing is added and nothing is recorded. *)
Theorem C3_bmi_preprocessing (self : THAEngine.t) (age : Q)
        (answers : gmap string Raw) (r : THAResult) :
  THAEngine.compute self age answers = Ok r ->
  (forall it, it ∈ THAEngine.items self -> scored it = true ->
              it_id it <> "bmi_calculated") ->
  (forall h w,
     THAEngine.as_number (answers_get answers "height") = Ok h ->
     THAEngine.as_number (answers_get answers "weight") = Ok w ->
     exists hr caps lo hi,
       spec_bmi_hazard_ratio h w hr /\
       itemYears r !! "bmi_calculated" = Some (ln (Q2R hr) / THAEngine.b self)%R /\
       THAEngine.domains self !! "body" = Some caps /\
       ln_cap_lo caps = Some lo /\ ln_cap_hi caps = Some hi /\
       domainYears r !! "body" =
         Some (clamp (Q2R lo) (Q2R hi)
                     (ln (Q2R hr) +
                      sum_terms (item_term answers "body") (THAEngine.items self))
               / THAEngine.b self)%R) /\
  (answers_get answers "height" = RNone \/ answers_get answers "weight" = RNone ->
   itemYears r !! "bmi_calculated" = None /\
   forall caps lo hi,
     THAEngine.domains self !! "body" = Some caps ->
     ln_cap_lo caps = Some lo -> ln_cap_hi caps = Some hi ->
     domainYears r !! "body" =
       Some (clamp (Q2R lo) (Q2R hi)
                   (sum_terms (item_term answers "body") (THAEngine.items self))
             / THAEngine.b self)%R).
Proof.
  intros Hr Hids. split.
  - intros h w. apply (bmi_numeric_effect self age); assumption.
  - apply (bmi_absent_effect self age); assumption.
Qed.

Lemma demo_items_not_bmi (it : Item) :
  it ∈ THAEngine.items demo_engine -> scored it = true ->
  it_id it <> "bmi_calculated".
Proof.
  intros Hin _. cbn in Hin.
  repeat (apply elem_of_cons in Hin as [-> | Hin]); try discriminate.
  inversion Hin.
Qed.

Lemma bmi_compute :
  exists r, THAEngine.compute demo_engine (40 # 1) bmi_answers = Ok r.
Proof. eexists. run_engine. reflexivity. Qed.

Ltac absurd_Q H :=
  exfalso; vm_compute in H; first [ discriminate H | apply H; reflexivity ].

Lemma C3_bmi_preprocessing_witness :
  exists r,
    THAEngine.compute demo_engine (40 # 1) bmi_answers = Ok r /\
    itemYears r !! "bmi_calculated"
      = Some (ln (Q2R (115 # 100)) / THAEngine.b demo_engine)%R.
Proof.
  destruct bmi_compute as [r Hr]. exists r. split; [ exact Hr | ].
  destruct (C3_bmi_preprocessing demo_engine (40 # 1) bmi_answers r Hr
              demo_items_not_bmi) as [Hnum _].
  destruct (Hnum (inject_Z 70) (inject_Z 180) eq_refl eq_refl)
    as (hr & caps & lo & hi & Hspec & Hy & _).
  destruct Hspec as [[[H | H] _] | (_ & _ & Hcat)]; [ absurd_Q H | absurd_Q H | ].
  destruct Hcat as [[H _] | [(_ & H & _) | [(_ & _ & ->) | [(H & _ & _) | [H _]]]]];
    [ absurd_Q H | absurd_Q H | exact Hy | absurd_Q H | absurd_Q H ].
Defined.

Lemma ln_Q2R_one : ln (Q2R (1 # 1)) = 0%R.
Proof.
  replace (Q2R (1 # 1)) with 1%R by (unfold Q2R; cbn [Qnum Qden]; lra).
  apply ln_1.
Qed.

Lemma demo_compute_empty :
  exists r, THAEngine.compute demo_engine (40 # 1) ∅ = Ok r.
Proof. eexists. run_engine. reflexivity. Qed.

(** C3, as stated, fails when an answer is missing: with no answers at all
    the BMI cannot be computed, yet no penalty of ln 1.05 is added to
    "body" (its years are 0) and no "bmi_calculated" entry is recorded. *)
Lemma C3_missing_answers_counterexample :
  answers_get ∅ "height" = RNone /\
  (0 < ln (Q2R (105 # 100)))%R /\
  exists r,
    THAEngine.compute demo_engine (40 # 1) ∅ = Ok r /\
    itemYears r !! "bmi_calculated" = None /\
    domainYears r !! "body" = Some 0%R.
Proof.
  split; [ reflexivity | ]. split.
  { rewrite <- ln_1. apply ln_increasing; [ lra | ].
    unfold Q2R. cbn [Qnum Qden]. lra. }
  destruct demo_compute_empty as [r Hr]. exists r. split; [ exact Hr | ].
  destruct (bmi_absent_effect demo_engine (40 # 1) ∅ r Hr demo_items_not_bmi)
    as [Hnone Hbody]; [ left; reflexivity | ].
  split; [ exact Hnone | ].
  rewrite (Hbody (mk_caps (-1 # 2) (1 # 2)) (-1 # 2)%Q (1 # 2)%Q eq_refl eq_refl eq_refl).
  f_equal.
  assert (Hsum : sum_terms (item_term ∅ "body") (THAEngine.items demo_engine) = 0%R).
  { run_engine. rewrite ln_Q2R_one. lra. }
  rewrite Hsum. unfold clamp, Q2R. cbn [Qnum Qden].
  rewrite Rmin_right by lra. rewrite Rmax_right by lra. lra.
Qed.

(** * Monotonicity *)

Lemma NoDup_fmap_eq {A B} (f : A -> B) (l : list A) (x y : A) :
  NoDup (f <$> l) -> x ∈ l -> y ∈ l -> f x = f y -> x = y.
Proof.
  induction l as [|z l IH]; intros Hnd Hx Hy Hf; [ inversion Hx | ].
  rewrite fmap_cons in Hnd. apply NoDup_cons in Hnd as [Hz Hnd].
  apply elem_of_cons in Hx as [-> | Hx]; apply elem_of_cons in Hy as [-> | Hy].
  - reflexivity.
  - destruct Hz. rewrite Hf. apply list_elem_of_fmap. eauto.
  - destruct Hz. rewrite <- Hf. apply list_elem_of_fmap. eauto.
  - apply IH; assumption.
Qed.

Lemma scored_true_id (it : Item) :
  scored it = true -> it_id it <> "height" /\ it_id it <> "weight".
Proof.
  unfold scored, str_in. cbn [existsb]. intros H.
  apply negb_true_iff in H. rewrite orb_false_r in H.
  apply orb_false_iff in H as [H1 H2].
  apply String.eqb_neq in H1, H2. auto.
Qed.

Lemma scored_false_id (it : Item) :
  scored it = false -> it_id it = "height" \/ it_id it = "weight".
Proof.
  unfold scored, str_in. cbn [existsb]. intros H.
  apply negb_false_iff in H. rewrite orb_false_r in H.
  apply orb_true_iff in H as [H | H]; apply String.eqb_eq in H; auto.
Qed.

Lemma scored_by_id (it it' : Item) : it_id it' = it_id it -> scored it' = scored it.
Proof. unfold scored. intros ->. reflexivity. Qed.

Section Agreement.

Variables answers1 answers2 : gmap string Raw.
Variable iid : string.
Hypothesis agree : forall k, k <> iid -> answers2 !! k = answers1 !! k.

Lemma answers_get_agree (k : string) :
  k <> iid -> answers_get answers2 k = answers_get answers1 k.
Proof. intros Hk. unfold answers_get. rewrite (agree k Hk). reflexivity. Qed.

Lemma bmi_term_agree (d : string) :
  iid <> "height" -> iid <> "weight" ->
  bmi_term answers2 d = bmi_term answers1 d.
Proof.
  intros Hh Hw. unfold bmi_term, bmi_present, bmi_lnhr_of.
  rewrite !(answers_get_agree "height") by congruence.
  rewrite !(answers_get_agree "weight") by congruence.
  reflexivity.
Qed.

Lemma item_term_agree (d : string) (it : Item) :
  it_id it <> iid -> item_term answers2 d it = item_term answers1 d it.
Proof.
  intros Hne. unfold item_term, item_lnhr_of.
  rewrite (answers_get_agree _ Hne). reflexivity.
Qed.

End Agreement.

Lemma item_lnhr_at_bin (answers : gmap string Raw) (it : Item) (i : Z) (x : R) :
  0 <= i ->
  _raw_to_bin it (answers_get answers (it_id it)) = Ok (Some i) ->
  item_lnhr_of answers it = Ok x ->
  exists h, it_hr it !! Z.to_nat i = Some h /\ (0 < h)%Q /\ x = ln (Q2R h).
Proof.
  intros Hi Hbin. unfold item_lnhr_of. rewrite Hbin. cbn.
  unfold THAEngine._item_lnhr, py_index.
  apply Z.leb_le in Hi. rewrite Hi.
  destruct ((0 <=? i) && (i <? Z.of_nat (length (it_hr it)))); [ | discriminate ].
  destruct (it_hr it !! Z.to_nat i) as [h|]; [ | discriminate ]. cbn.
  destruct (Qle_bool h 0) eqn:E; [ discriminate | ].
  intros [= <-]. exists h. split; [ reflexivity | ].
  split; [ apply Qle_bool_false, E | reflexivity ].
Qed.

Lemma div_b_le (b x y : R) : (0 < b)%R -> (x <= y)%R -> (x / b <= y / b)%R.
Proof.
  intros Hb Hxy. unfold Rdiv. apply Rmult_le_compat_r; [ | exact Hxy ].
  left. apply Rinv_0_lt_compat, Hb.
Qed.

Lemma ln_Q2R_le (x y : Q) : (0 < x)%Q -> (x <= y)%Q -> (ln (Q2R x) <= ln (Q2R y))%R.
Proof.
  intros Hx Hxy. apply Q2R_pos in Hx. apply Qle_Rle in Hxy.
  destruct Hxy as [Hlt | ->]; [ | lra ].
  left. apply ln_increasing; assumption.
Qed.

Lemma compute_domain_years_none (self : THAEngine.t) (age : Q)
      (answers : gmap string Raw) (r : THAResult) (d : string) :
  THAEngine.compute self age answers = Ok r ->
  THAEngine.domains self !! d = None ->
  domainYears r !! d = None.
Proof.
  intros Hr Hd. apply compute_inv in Hr as (pd & iy & Ht & -> & _).
  destruct (domain_totals_spec _ _ _ _ Ht) as [Hdom _].
  rewrite lookup_fmap. apply not_elem_of_dom in Hd. rewrite <- Hdom in Hd.
  apply not_elem_of_dom in Hd. rewrite Hd. reflexivity.
Qed.

Section Monotone.

Variable cfg : Config.
Variable self : THAEngine.t.
Variable age : Q.
Variables answers1 answers2 : gmap string Raw.
Variables r1 r2 : THAResult.
Variable it : Item.
Variable i : Z.

Hypothesis constructed : THAEngine.__init__ cfg = Ok self.
Hypothesis distinct_ids : NoDup (it_id <$> cfg_items cfg).
Hypothesis configured : it ∈ THAEngine.items self.
Hypothesis decreasing_risk :
  forall (j : nat) (x y : Q),
    it_hr it !! j = Some x -> it_hr it !! S j = Some y -> (y <= x)%Q.
Hypothesis others_fixed : forall k, k <> it_id it -> answers2 !! k = answers1 !! k.
Hypothesis valid_bin : 0 <= i.
Hypothesis bin_before : _raw_to_bin it (answers_get answers1 (it_id it)) = Ok (Some i).
Hypothesis bin_after : _raw_to_bin it (answers_get answers2 (it_id it)) = Ok (Some (i + 1)).
Hypothesis evaluated1 : THAEngine.compute self age answers1 = Ok r1.
Hypothesis evaluated2 : THAEngine.compute self age answers2 = Ok r2.

Lemma engine_distinct_ids : NoDup (it_id <$> THAEngine.items self).
Proof.
  destruct (init_inv _ _ constructed) as (_ & _ & _ & -> & _).
  rewrite sorted_by_order_perm. exact distinct_ids.
Qed.

(** The log hazard ratio of the item does not grow. *)
Lemma item_lnhr_decreases (x1 x2 : R) :
  item_lnhr_of answers1 it = Ok x1 ->
  item_lnhr_of answers2 it = Ok x2 ->
  (x2 <= x1)%R.
Proof.
  intros H1 H2.
  destruct (item_lnhr_at_bin _ _ _ _ valid_bin bin_before H1) as (h1 & Hl1 & Hp1 & ->).
  assert (Hi' : 0 <= i + 1) by lia.
  destruct (item_lnhr_at_bin _ _ _ _ Hi' bin_after H2) as (h2 & Hl2 & Hp2 & ->).
  replace (Z.to_nat (i + 1)) with (S (Z.to_nat i)) in Hl2 by lia.
  apply ln_Q2R_le; [ exact Hp2 | ]. eapply decreasing_risk; eassumption.
Qed.

Lemma item_term_decreases (d : string) (it' : Item) :
  it' ∈ THAEngine.items self ->
  scored it = true ->
  (item_term answers2 d it' <= item_term answers1 d it')%R.
Proof.
  intros Hin Hs.
  destruct (decide (it_id it' = it_id it)) as [Heq | Hne].
  - assert (it' = it)
      by (exact (NoDup_fmap_eq it_id _ it' it engine_distinct_ids Hin configured Heq)).
    subst it'. unfold item_term. rewrite Hs. cbn [andb].
    destruct (String.eqb (it_domain it) d); [ | lra ].
    destruct (compute_inv _ _ _ _ evaluated1) as (pd1 & iy1 & Ht1 & _).
    destruct (compute_inv _ _ _ _ evaluated2) as (pd2 & iy2 & Ht2 & _).
    destruct (domain_totals_item_years_in _ _ _ _ _ Ht1 engine_distinct_ids configured Hs)
      as (x1 & Hx1 & _).
    destruct (domain_totals_item_years_in _ _ _ _ _ Ht2 engine_distinct_ids configured Hs)
      as (x2 & Hx2 & _).
    rewrite Hx1, Hx2. cbn. eapply item_lnhr_decreases; eassumption.
  - rewrite (item_term_agree answers1 answers2 (it_id it) others_fixed d it' Hne). lra.
Qed.

Lemma unclamped_total_decreases (d : string) :
  scored it = true ->
  (spec_unclamped_total self answers2 d <= spec_unclamped_total self answers1 d)%R.
Proof.
  intros Hs. unfold spec_unclamped_total.
  destruct (scored_true_id _ Hs) as [Hh Hw].
  rewrite (bmi_term_agree answers1 answers2 (it_id it) others_fixed d Hh Hw).
  apply Rplus_le_compat_l, sum_terms_le.
  intros it' Hin. apply item_term_decreases; assumption.
Qed.

End Monotone.

(** C6.  For an engine the constructor returned from a configuration with
    distinct item identifiers, and an item whose hr array is in decreasing
    risk order: when one answer moves from a valid bin i to bin i+1, the
    other answers being the same, and both evaluations succeed, the item's
    years contribution does not increase; if the item is scored, no
    domain's clamped total (reported as its years) increases; and a domain
    total already at its upper cap does not go beyond it. *)
Theorem C6_better_bin_never_increases (cfg : Config) (self : THAEngine.t) (age : Q)
        (answers1 answers2 : gmap string Raw) (r1 r2 : THAResult) (it : Item) (i : Z) :
  THAEngine.__init__ cfg = Ok self ->
  NoDup (it_id <$> cfg_items cfg) ->
  it ∈ THAEngine.items self ->
  (forall (j : nat) (x y : Q),
     it_hr it !! j = Some x -> it_hr it !! S j = Some y -> (y <= x)%Q) ->
  (forall k, k <> it_id it -> answers2 !! k = answers1 !! k) ->
  0 <= i ->
  _raw_to_bin it (answers_get answers1 (it_id it)) = Ok (Some i) ->
  _raw_to_bin it (answers_get answers2 (it_id it)) = Ok (Some (i + 1)) ->
  THAEngine.compute self age answers1 = Ok r1 ->
  THAEngine.compute self age answers2 = Ok r2 ->
  (forall y1 y2,
     itemYears r1 !! it_id it = Some y1 ->
     itemYears r2 !! it_id it = Some y2 -> (y2 <= y1)%R) /\
  (scored it = true ->
   forall d v1 v2,
     domainYears r1 !! d = Some v1 ->
     domainYears r2 !! d = Some v2 -> (v2 <= v1)%R) /\
  (forall caps hi v1 v2,
     THAEngine.domains self !! it_domain it = Some caps ->
     ln_cap_hi caps = Some hi ->
     domainYears r1 !! it_domain it = Some v1 ->
     v1 = (Q2R hi / THAEngine.b self)%R ->
     domainYears r2 !! it_domain it = Some v2 -> (v2 <= v1)%R).
Proof.
  intros Hinit Hnd Hin Hdec Hfix Hi Hb1 Hb2 Hr1 Hr2.
  pose proof (init_b_pos _ _ Hinit) as Hb.
  pose proof (engine_distinct_ids cfg self Hinit Hnd) as Hnd'.
  split; [ | split ].
  - intros y1 y2 Hy1 Hy2.
    destruct (compute_inv _ _ _ _ Hr1) as (pd1 & iy1 & Ht1 & _ & Hiy1 & _).
    destruct (compute_inv _ _ _ _ Hr2) as (pd2 & iy2 & Ht2 & _ & Hiy2 & _).
    rewrite Hiy1 in Hy1. rewrite Hiy2 in Hy2.
    destruct (scored it) eqn:Hs.
    + destruct (domain_totals_item_years_in _ _ _ _ _ Ht1 Hnd' Hin Hs) as (x1 & Hx1 & _ & Hl1).
      destruct (domain_totals_item_years_in _ _ _ _ _ Ht2 Hnd' Hin Hs) as (x2 & Hx2 & _ & Hl2).
      assert (y1 = (x1 / THAEngine.b self)%R) by congruence.
      assert (y2 = (x2 / THAEngine.b self)%R) by congruence. subst y1 y2.
      apply div_b_le; [ exact Hb | ].
      eapply (item_lnhr_decreases answers1 answers2 it i); eassumption.
    + exfalso.
      assert (Hnone : iy1 !! it_id it = None); [ | congruence ].
      apply (domain_totals_item_years_other _ _ _ _ _ Ht1).
      * intros it' _ Hs' Heq. apply scored_by_id in Heq. congruence.
      * left. destruct (scored_false_id _ Hs) as [-> | ->]; discriminate.
  - intros Hs d v1 v2 Hv1 Hv2.
    destruct (THAEngine.domains self !! d) as [caps|] eqn:Hd.
    + destruct (compute_domain_years _ _ _ _ _ _ Hr1 Hd) as (lo & hi & Hlo & Hhi & Hd1).
      destruct (compute_domain_years _ _ _ _ _ _ Hr2 Hd) as (lo' & hi' & Hlo' & Hhi' & Hd2).
      assert (lo' = lo) by congruence. assert (hi' = hi) by congruence. subst lo' hi'.
      rewrite Hd1 in Hv1. rewrite Hd2 in Hv2.
      injection Hv1 as <-. injection Hv2 as <-.
      apply div_b_le; [ exact Hb | ]. apply clamp_mono.
      eapply (unclamped_total_decreases cfg self age answers1 answers2 r1 r2 it i);
        eassumption.
    + rewrite (compute_domain_years_none _ _ _ _ _ Hr1 Hd) in Hv1. discriminate.
  - intros caps hi v1 v2 Hd Hhi Hv1 -> Hv2.
    destruct (compute_domain_years _ _ _ _ _ _ Hr2 Hd) as (lo & hi' & Hlo & Hhi' & Hd2).
    assert (hi' = hi) by congruence. subst hi'.
    rewrite Hd2 in Hv2. injection Hv2 as <-.
    destruct (init_caps _ _ _ _ Hinit Hd) as (lo' & hi' & Hlo' & Hhi'' & Hle).
    assert (lo' = lo) by congruence. assert (hi' = hi) by congruence. subst lo' hi'.
    apply div_b_le; [ exact Hb | ]. apply clamp_upper, Qle_Rle, Hle.
Qed.

Lemma smoker_compute :
  exists r, THAEngine.compute demo_engine (40 # 1) smoker_answers = Ok r.
Proof. eexists. run_engine. reflexivity. Qed.

Lemma nonsmoker_compute :
  exists r, THAEngine.compute demo_engine (40 # 1) nonsmoker_answers = Ok r.
Proof. eexists. run_engine. reflexivity. Qed.

Lemma smoking_hr_decreasing (j : nat) (x y : Q) :
  it_hr smoking_item !! j = Some x -> it_hr smoking_item !! S j = Some y -> (y <= x)%Q.
Proof.
  destruct j as [|[|j]]; cbn; intros Hx Hy; try discriminate.
  injection Hx as <-. injection Hy as <-. vm_compute. discriminate.
Qed.

Lemma C6_better_bin_witness :
  exists r1 r2,
    THAEngine.compute demo_engine (40 # 1) smoker_answers = Ok r1 /\
    THAEngine.compute demo_engine (40 # 1) nonsmoker_answers = Ok r2 /\
    (forall y1 y2,
       itemYears r1 !! "smoking" = Some y1 ->
       itemYears r2 !! "smoking" = Some y2 -> (y2 <= y1)%R) /\
    (forall d v1 v2,
       domainYears r1 !! d = Some v1 ->
       domainYears r2 !! d = Some v2 -> (v2 <= v1)%R).
Proof.
  destruct smoker_compute as [r1 Hr1]. destruct nonsmoker_compute as [r2 Hr2].
  exists r1, r2. split; [ exact Hr1 | ]. split; [ exact Hr2 | ].
  assert (Hnd : NoDup (it_id <$> cfg_items demo_cfg))
    by (apply (bool_decide_unpack _); vm_compute; reflexivity).
  assert (Hin : smoking_item ∈ THAEngine.items demo_engine) by left.
  assert (Hfix : forall k, k <> it_id smoking_item ->
                           nonsmoker_answers !! k = smoker_answers !! k).
  { intros k Hk. unfold nonsmoker_answers, smoker_answers.
    rewrite !lookup_insert_ne by (intros Heq; apply Hk; symmetry; exact Heq).
    reflexivity. }
  assert (Hi : 0 <= 0) by lia.
  assert (Hb1 : _raw_to_bin smoking_item (answers_get smoker_answers (it_id smoking_item))
                = Ok (Some 0)) by (vm_compute; reflexivity).
  assert (Hb2 : _raw_to_bin smoking_item (answers_get nonsmoker_answers (it_id smoking_item))
                = Ok (Some (0 + 1))) by (vm_compute; reflexivity).
  destruct (C6_better_bin_never_increases demo_cfg demo_engine (40 # 1)
              smoker_answers nonsmoker_answers r1 r2 smoking_item 0
              demo_engine_init Hnd Hin smoking_hr_decreasing Hfix Hi Hb1 Hb2 Hr1 Hr2)
    as (Hitem & Hdomain & _).
  split; [ exact Hitem | apply Hdomain; reflexivity ].
Defined.

(** * Further properties of the engine *)

(** ** The Gompertz slope *)

(** X1.  [gompertz_b] raises exactly on a doubling time that is not
    positive; otherwise the slope it returns is positive and doubles the
    hazard over one doubling time: exp(b * mrdt) = 2. *)
Theorem X1_gompertz_b_doubles (mrdt : Q) :
  ((mrdt <= 0)%Q /\ gompertz_b mrdt = Err MRDTNotPositive) \/
  ((0 < mrdt)%Q /\
   exists b, gompertz_b mrdt = Ok b /\ (0 < b)%R /\ exp (b * Q2R mrdt) = 2%R).
Proof.
  unfold gompertz_b. destruct (Qle_bool mrdt 0) eqn:E.
  - left. split; [ apply Qle_bool_iff, E | reflexivity ].
  - right. apply Qle_bool_false in E. split; [ exact E | ].
    pose proof (Q2R_pos _ E) as Hm. pose proof ln_2_pos as H2.
    exists (ln 2 / Q2R mrdt)%R. split; [ reflexivity | ]. split.
    + apply Rdiv_lt_0_compat; assumption.
    + replace (ln 2 / Q2R mrdt * Q2R mrdt)%R with (ln 2) by (field; lra).
      apply exp_ln. lra.
Qed.

(** ** Construction *)

(** X2.  The constructor succeeds exactly on the configurations with a
    positive doubling time, domains that all have both caps with
    lo <= hi, and items that all have at least two hazard ratios and,
    when they have bins, as many bins as hazard ratios.  The engine it
    returns holds the items in sorted order, the domains unchanged, the
    slope ln 2 / mrdt, and 10 for a clamp that is not configured. *)
Theorem X2_constructor_accepts_checked_configurations (cfg : Config) :
  (is_Ok (THAEngine.__init__ cfg) <-> config_checks cfg) /\
  (forall self,
     THAEngine.__init__ cfg = Ok self ->
     THAEngine.b self = (ln 2 / Q2R (cfg_mrdt_years cfg))%R /\
     THAEngine.domains self = cfg_domains cfg /\
     THAEngine.items self = sorted_by_order (cfg_items cfg) /\
     THAEngine.groups self = THAEngine.build_groups (THAEngine.items self) /\
     THAEngine.version self = default "THA-unknown" (cfg_algo_version cfg) /\
     THAEngine.age_clamp_years self = default (10 # 1)%Q (cfg_age_clamp_years cfg)).
Proof.
  split; [ apply init_ok | ].
  intros self H.
  unfold THAEngine.__init__, gompertz_b in H.
  destruct (Qle_bool (cfg_mrdt_years cfg) 0); [ discriminate | ]. cbn in H.
  destruct (THAEngine._validate _ _); [ | discriminate ]. cbn in H.
  injection H as <-. cbn. auto 10.
Qed.

(** ** Sorting by declared order *)

Lemma insert_by_order_sorted (x : Item) (l : list Item) :
  StronglySorted (fun a b => (order_key a <= order_key b)%Q) l ->
  StronglySorted (fun a b => (order_key a <= order_key b)%Q) (insert_by_order x l).
Proof.
  induction 1 as [|y l Hl IH Hy]; cbn.
  - repeat constructor.
  - destruct (Qle_bool (order_key x) (order_key y)) eqn:E.
    + apply Qle_bool_iff in E. constructor; [ constructor; assumption | ].
      constructor; [ exact E | ].
      eapply Forall_impl; [ exact Hy | ]. cbn. intros z Hz.
      eapply Qle_trans; eassumption.
    + apply Qle_bool_false in E. constructor; [ exact IH | ].
      rewrite insert_by_order_perm. constructor; [ | exact Hy ].
      apply Qlt_le_weak, E.
Qed.

Lemma insert_by_order_filter (k : Q) (x : Item) (l : list Item) :
  filter (fun it => Qeq_bool (order_key it) k = true) (insert_by_order x l) =
  filter (fun it => Qeq_bool (order_key it) k = true) (x :: l).
Proof.
  induction l as [|y l IH]; cbn [insert_by_order]; [ reflexivity | ].
  destruct (Qle_bool (order_key x) (order_key y)) eqn:E; [ reflexivity | ].
  apply Qle_bool_false in E.
  rewrite (filter_cons _ y), IH, !filter_cons.
  destruct (decide (Qeq_bool (order_key y) k = true)) as [Hy | Hy];
    destruct (decide (Qeq_bool (order_key x) k = true)) as [Hx | Hx];
    try reflexivity.
  exfalso. apply Qeq_bool_iff in Hx, Hy.
  rewrite Hx, Hy in E. eapply Qlt_irrefl, E.
Qed.

(** X3.  Sorting the items by their declared order (999 when none is
    declared) rearranges them, puts them in ascending order, and is
    stable: the items sharing an order keep their configured sequence. *)
Theorem X3_sorted_by_order_stable (l : list Item) :
  sorted_by_order l ≡ₚ l /\
  StronglySorted (fun a b => (order_key a <= order_key b)%Q) (sorted_by_order l) /\
  (forall k : Q,
     filter (fun it => Qeq_bool (order_key it) k = true) (sorted_by_order l) =
     filter (fun it => Qeq_bool (order_key it) k = true) l).
Proof.
  split; [ apply sorted_by_order_perm | ]. split.
  - induction l as [|x l IH]; cbn; [ constructor | ].
    apply insert_by_order_sorted, IH.
  - intros k. induction l as [|x l IH]; cbn [sorted_by_order foldr]; [ reflexivity | ].
    rewrite insert_by_order_filter, !filter_cons.
    fold (sorted_by_order l). rewrite IH. reflexivity.
Qed.

(** ** Groups *)

Lemma build_groups_fold (l : list Item) (acc : gmap string (list string)) (g : string) :
  fold_left (fun groups it =>
               <[group_of it := default [] (groups !! group_of it) ++ [it_id it]]> groups)
            l acc !! g =
  match ids_of_group g l with
  | [] => acc !! g
  | ids => Some (default [] (acc !! g) ++ ids)
  end.
Proof.
  revert acc. induction l as [|it l IH]; intros acc; cbn [fold_left]; [ reflexivity | ].
  rewrite IH. unfold ids_of_group. rewrite filter_cons.
  destruct (decide (group_of it = g)) as [<- | Hne].
  - rewrite lookup_insert_eq. cbn [default].
    rewrite fmap_cons.
    destruct (it_id <$> filter _ l) as [|i ids]; cbn.
    + reflexivity.
    + rewrite <- app_assoc. reflexivity.
  - rewrite lookup_insert_ne by exact Hne. reflexivity.
Qed.

(** X4.  The groups map built by the constructor sends each group that
    has items to the identifiers of exactly its items, in the order of the
    item list (items without a group go under "ungrouped"), and has no
    entry for any other name. *)
Theorem X4_groups_list_their_items (l : list Item) (g : string) :
  THAEngine.build_groups l !! g =
    match ids_of_group g l with
    | [] => None
    | ids => Some ids
    end.
Proof.
  unfold THAEngine.build_groups.
  change (fold_left _ l ∅) with
    (fold_left (fun groups it =>
                  <[group_of it := default [] (groups !! group_of it) ++ [it_id it]]> groups)
               l (∅ : gmap string (list string))).
  rewrite build_groups_fold, lookup_empty. reflexivity.
Qed.

(** ** The classifier, rule by rule *)










(** ** Medical history *)

Lemma count_score_zero_or_one (n : nat) :
  (n = 0%nat /\ Qlt_bool (inject_Z (Z.of_nat n)) (1 # 10) = true) \/
  (n <> 0%nat /\ Qlt_bool (inject_Z (Z.of_nat n)) (1 # 10) = false /\
   Qlt_bool (inject_Z (Z.of_nat n)) (3 # 10) = false /\
   Qlt_bool (inject_Z (Z.of_nat n)) (6 # 10) = false).
Proof.
  destruct n as [|n].
  - left. split; reflexivity.
  - right. split; [ discriminate | ].
    repeat split; apply Qlt_bool_false; unfold Qle, inject_Z; cbn; lia.
Qed.

Lemma filter_nil_Forall {A} (P : A -> Prop) `{forall x, Decision (P x)} (l : list A) :
  filter P l = [] <-> Forall (fun x => ~ P x) l.
Proof.
  induction l as [|x l IH]; [ split; [ constructor | reflexivity ] | ].
  rewrite filter_cons. destruct (decide (P x)) as [Hx | Hx].
  - split; [ discriminate | intros Hall; inversion Hall; contradiction ].
  - rewrite IH. split; [ intros Hall; constructor; assumption | ].
    intros Hall. inversion Hall. assumption.
Qed.

Lemma medical_history_count (item : Item) (selected : list string) :
  str_in (it_id item) medical_history_ids = true ->
  it_input_type item = Some "multi_select" ->
  it_scoring_weights item = ∅ ->
  _raw_to_bin item (RList selected) =
    Ok (Some (if Nat.eqb (length (filter (fun s => negb (str_in s sentinels) = true)
                                         selected)) 0
              then Z.of_nat (length (it_hr item)) - 1 else 0)).
Proof.
  intros Hmed Hms Hw. unfold _raw_to_bin. cbn zeta iota beta.
  rewrite bool_decide_eq_true_2 by exact Hms. rewrite Hmed.
  rewrite (score_is_count item Hw).
  set (valid := filter (fun s => negb (str_in s sentinels) = true) selected).
  destruct (count_score_zero_or_one (length valid)) as [[H0 ->] | (Hn & -> & -> & ->)].
  - rewrite H0. reflexivity.
  - apply Nat.eqb_neq in Hn. rewrite Hn. reflexivity.
Qed.

(** X7.  On "family_history" and "personal_conditions" asked as
    multi-select without scoring weights, the classification has two
    outcomes only: the last bin when no label other than a sentinel is
    selected, and bin 0 as soon as one is; the two intermediate bins of
    the threshold table are never produced. *)
Theorem X7_medical_history_without_weights (item : Item) (selected : list string) :
  str_in (it_id item) medical_history_ids = true ->
  it_input_type item = Some "multi_select" ->
  it_scoring_weights item = ∅ ->
  _raw_to_bin item (RList selected) =
    Ok (Some (if decide (Forall (fun s => str_in s sentinels = true) selected)
              then Z.of_nat (length (it_hr item)) - 1 else 0)).
Proof.
  intros Hmed Hms Hw. rewrite (medical_history_count item selected Hmed Hms Hw).
  set (valid := filter (fun s => negb (str_in s sentinels) = true) selected).
  assert (Hvalid : length valid = 0%nat <->
                   Forall (fun s => str_in s sentinels = true) selected).
  { unfold valid. rewrite length_zero_iff_nil, filter_nil_Forall.
    apply Forall_iff. intros s. destruct (str_in s sentinels); cbn; intuition congruence. }
  destruct (Nat.eqb (length valid) 0) eqn:E.
  - apply Nat.eqb_eq in E. rewrite decide_True by (apply Hvalid, E). reflexivity.
  - apply Nat.eqb_neq in E. rewrite decide_False by (rewrite <- Hvalid; exact E).
    reflexivity.
Qed.

Lemma X7_medical_history_witness :
  let item := {| it_id := "family_history"; it_domain := "body";
                 it_hr := [(15 # 10); (13 # 10); (11 # 10); (1 # 1)]%Q;
                 it_missing_hr := None; it_input_type := Some "multi_select";
                 it_options := None; it_options_range := None;
                 it_scoring_weights := ∅; it_order := None; it_group := None;
                 it_bins := None |} in
  _raw_to_bin item (RList ["Not sure"]) = Ok (Some 3) /\
  _raw_to_bin item (RList ["Diabetes"]) = Ok (Some 0).
Proof.
  intros item.
  rewrite !(X7_medical_history_without_weights item _ eq_refl eq_refl eq_refl).
  split; vm_compute; reflexivity.
Defined.

(** X8.  A multi-select item without scoring weights and with at least
    one hazard ratio always classifies a selection to a valid index of its
    hr array, so the hazard-ratio lookup that follows cannot raise. *)
Theorem X8_count_scoring_gives_valid_bin (item : Item) (selected : list string) :
  it_input_type item = Some "multi_select" ->
  it_scoring_weights item = ∅ ->
  (1 <= length (it_hr item))%nat ->
  exists bin hr,
    _raw_to_bin item (RList selected) = Ok (Some bin) /\
    0 <= bin <= Z.of_nat (length (it_hr item)) - 1 /\
    selected_hr item (Some bin) = Ok hr.
Proof.
  intros Hms Hw Hlen.
  assert (Hidx : forall bin, 0 <= bin <= Z.of_nat (length (it_hr item)) - 1 ->
                             exists hr, selected_hr item (Some bin) = Ok hr).
  { intros bin [Hlo Hhi]. unfold selected_hr, py_index.
    apply Z.leb_le in Hlo as Hlo'. rewrite Hlo'.
    assert (Hlt : (bin <? Z.of_nat (length (it_hr item))) = true) by (apply Z.ltb_lt; lia).
    cbn zeta iota. rewrite Hlo', Hlt. cbn [andb].
    destruct (it_hr item !! Z.to_nat bin) as [hr|] eqn:E.
    - exists hr. reflexivity.
    - apply lookup_ge_None in E. lia. }
  destruct (str_in (it_id item) medical_history_ids) eqn:Hmed.
  - rewrite (medical_history_count item selected Hmed Hms Hw).
    destruct (Nat.eqb _ 0).
    + assert (Hb : 0 <= Z.of_nat (length (it_hr item)) - 1 <= Z.of_nat (length (it_hr item)) - 1) by lia.
      destruct (Hidx _ Hb) as [hr Hhr]. eauto.
    + assert (Hb : 0 <= 0 <= Z.of_nat (length (it_hr item)) - 1) by lia.
      destruct (Hidx _ Hb) as [hr Hhr]. eauto.
  - rewrite (raw_to_bin_multiselect item selected Hms Hmed).
    rewrite (score_is_count item Hw).
    set (n := length (filter _ selected)).
    assert (Hb : 0 <= Z.min (py_int (inject_Z (Z.of_nat n))) (Z.of_nat (length (it_hr item)) - 1)
                 <= Z.of_nat (length (it_hr item)) - 1).
    { rewrite py_int_floor by apply score_count_nonneg.
      unfold Qfloor, inject_Z. rewrite Z.div_1_r. lia. }
    destruct (Hidx _ Hb) as [hr Hhr]. eauto.
Qed.

Lemma X8_count_scoring_witness :
  exists bin hr,
    _raw_to_bin symptoms_item (RList ["cough"; "fever"; "None"; "rash"]) = Ok (Some bin) /\
    0 <= bin <= 2 /\
    selected_hr symptoms_item (Some bin) = Ok hr.
Proof.
  apply (X8_count_scoring_gives_valid_bin symptoms_item
           ["cough"; "fever"; "None"; "rash"] eq_refl eq_refl).
  cbn. lia.
Defined.

(** ** Body-mass index *)

Lemma Qle_bool_pos_false (q : Q) : (0 < q)%Q -> Qle_bool q 0 = false.
Proof. intros H. apply Qle_bool_false, H. Qed.

Ltac bmi_positive :=
  match goal with
  | |- (0 < _)%Q =>
    repeat match goal with
           | H : (0 < ?q)%Q |- _ => destruct q; unfold Qlt in H; cbn in H
           end;
    unfold Qlt; cbn; lia
  end.

(** X9.  For a positive height and weight, [_calculate_bmi] returns a
    positive BMI, and the same BMI (as a rational number) whether the
    person is described in inches and pounds, in centimetres and
    kilograms, or in feet and pounds. *)
Theorem X9_bmi_independent_of_units (h w : Q) :
  (0 < h)%Q -> (0 < w)%Q ->
  exists a b c,
    THAEngine._calculate_bmi (RFloat h) (RFloat w) "in" "lbs" = Ok (Some a) /\
    THAEngine._calculate_bmi (RFloat (h * (254 # 100))) (RFloat (w * (453592 # 1000000)))
                             "cm" "kg" = Ok (Some b) /\
    THAEngine._calculate_bmi (RFloat (h / (12 # 1))) (RFloat w) "ft" "pounds" = Ok (Some c) /\
    (a == b)%Q /\ (a == c)%Q /\ (0 < a)%Q.
Proof.
  intros Hh Hw.
  assert (Hh_cm : (0 < h * (254 # 100))%Q) by bmi_positive.
  assert (Hw_kg : (0 < w * (453592 # 1000000))%Q) by bmi_positive.
  assert (Hh_ft : (0 < h / (12 # 1))%Q) by bmi_positive.
  assert (Hm1 : (0 < h * (254 # 100) / (100 # 1))%Q) by bmi_positive.
  assert (Hm3 : (0 < h / (12 # 1) * (3048 # 100) / (100 # 1))%Q) by bmi_positive.
  eexists. eexists. eexists.
  split; [ | split; [ | split ] ].
  - unfold THAEngine._calculate_bmi. cbn.
    rewrite !Qle_bool_pos_false by assumption. reflexivity.
  - unfold THAEngine._calculate_bmi. cbn.
    rewrite !Qle_bool_pos_false by assumption. reflexivity.
  - unfold THAEngine._calculate_bmi. cbn.
    rewrite !Qle_bool_pos_false by assumption. reflexivity.
  - split; [ | split ].
    + reflexivity.
    + assert (Hne : ~ (h == 0)%Q) by (intros E; rewrite E in Hh; discriminate).
      field. exact Hne.
    + apply Qlt_shift_div_l.
      * apply Qmult_lt_0_compat; exact Hm1.
      * rewrite Qmult_0_l. exact Hw_kg.
Qed.

Lemma X9_bmi_units_witness :
  exists a, THAEngine._calculate_bmi (RFloat (70 # 1)) (RFloat (180 # 1)) "in" "lbs"
            = Ok (Some a) /\ (25 # 1 < a)%Q /\ (a < 26 # 1)%Q.
Proof.
  destruct (X9_bmi_independent_of_units (70 # 1) (180 # 1) eq_refl eq_refl)
    as (a & b & c & Ha & _).
  exists a. split; [ exact Ha | ].
  vm_compute in Ha. injection Ha as <-. split; reflexivity.
Defined.

Lemma ln_Q2R_pos (q : Q) : (1 < q)%Q -> (0 < ln (Q2R q))%R.
Proof.
  intros H. apply Qlt_Rlt in H.
  replace (Q2R 1) with 1%R in H by (unfold Q2R; cbn [Qnum Qden]; lra).
  rewrite <- ln_1. apply ln_increasing; lra.
Qed.

Lemma ln_Q2R_unit : ln (Q2R (100 # 100)) = 0%R.
Proof.
  replace (Q2R (100 # 100)) with 1%R by (unfold Q2R; cbn [Qnum Qden]; lra).
  apply ln_1.
Qed.

(** X10.  The BMI term is never negative, so the BMI can only add to the
    "body" total; it is zero exactly for a BMI in the reference range,
    from 18.5 up to but excluding 25, and in particular not for a BMI that
    could not be computed. *)
Theorem X10_bmi_term_never_negative (bmi : option Q) :
  (0 <= THAEngine._bmi_to_lnhr bmi)%R /\
  (THAEngine._bmi_to_lnhr bmi = 0%R <->
   exists x, bmi = Some x /\ (185 # 10 <= x)%Q /\ (x < 25 # 1)%Q).
Proof.
  assert (P105 : (0 < ln (Q2R (105 # 100)))%R) by (apply ln_Q2R_pos; reflexivity).
  assert (P120 : (0 < ln (Q2R (120 # 100)))%R) by (apply ln_Q2R_pos; reflexivity).
  assert (P115 : (0 < ln (Q2R (115 # 100)))%R) by (apply ln_Q2R_pos; reflexivity).
  assert (P140 : (0 < ln (Q2R (140 # 100)))%R) by (apply ln_Q2R_pos; reflexivity).
  assert (P180 : (0 < ln (Q2R (180 # 100)))%R) by (apply ln_Q2R_pos; reflexivity).
  pose proof ln_Q2R_unit as P100.
  destruct bmi as [x|]; cbn [THAEngine._bmi_to_lnhr].
  2: { split; [ lra | ]. split; [ lra | intros (x & Hx & _); discriminate ]. }
  destruct (Qlt_bool x (185 # 10)) eqn:E1.
  { apply Qlt_bool_true in E1. split; [ lra | ]. split; [ lra | ].
    intros (y & [= <-] & Hlo & _). exfalso. eapply Qlt_not_le; eassumption. }
  apply Qlt_bool_false in E1.
  destruct (Qlt_bool x (25 # 1)) eqn:E2.
  { apply Qlt_bool_true in E2. split; [ lra | ]. split; [ eauto | lra ]. }
  apply Qlt_bool_false in E2.
  assert (Hout : ~ exists y, Some x = Some y /\ (185 # 10 <= y)%Q /\ (y < 25 # 1)%Q).
  { intros (y & [= <-] & _ & Hhi). eapply Qlt_not_le; eassumption. }
  destruct (Qlt_bool x (30 # 1)); [ split; [ lra | split; [ lra | contradiction ] ] | ].
  destruct (Qlt_bool x (35 # 1)); split; try lra; split; try lra; contradiction.
Qed.

(** ** Which answers an evaluation reads *)

Lemma for_each_ext {S A} (f g : S -> A -> result S) (l : list A) (s : S) :
  (forall s' x, x ∈ l -> f s' x = g s' x) ->
  for_each f l s = for_each g l s.
Proof.
  revert s. induction l as [|x l IH]; intros s H; cbn; [ reflexivity | ].
  rewrite (H s x) by left. destruct (g s x); cbn; [ | reflexivity ].
  apply IH. intros s' y Hy. apply H. right. exact Hy.
Qed.

Lemma domain_totals_ext (self : THAEngine.t) (a1 a2 : gmap string Raw) :
  answers_get a1 "height" = answers_get a2 "height" ->
  answers_get a1 "weight" = answers_get a2 "weight" ->
  (forall it, it ∈ THAEngine.items self -> scored it = true ->
              item_lnhr_of a1 it = item_lnhr_of a2 it) ->
  THAEngine.domain_totals self a1 = THAEngine.domain_totals self a2.
Proof.
  intros Hh Hw Hit. unfold THAEngine.domain_totals.
  assert (Hb : forall st, THAEngine.bmi_step self a1 st = THAEngine.bmi_step self a2 st).
  { intros [pd iy]. unfold THAEngine.bmi_step. rewrite Hh, Hw. reflexivity. }
  rewrite Hb. destruct (THAEngine.bmi_step self a2 _) as [st0|]; cbn; [ | reflexivity ].
  rewrite (for_each_ext (THAEngine.item_step self a1) (THAEngine.item_step self a2));
    [ reflexivity | ].
  intros [pd iy] it Hin. destruct (scored it) eqn:Hs.
  - rewrite !item_step_scored by exact Hs. rewrite (Hit it Hin Hs). reflexivity.
  - rewrite !item_step_unscored by exact Hs. reflexivity.
Qed.

Lemma compute_ext (self : THAEngine.t) (age : Q) (a1 a2 : gmap string Raw) :
  THAEngine.domain_totals self a1 = THAEngine.domain_totals self a2 ->
  THAEngine.compute self age a1 = THAEngine.compute self age a2.
Proof. intros H. unfold THAEngine.compute. rewrite H. reflexivity. Qed.

(** X11.  An evaluation reads the answers only under "height", "weight"
    and the identifiers of the configured items, and reads an explicit
    None like an absent entry: two answer maps that agree there, up to
    None, give the same outcome, result or error. *)
Theorem X11_compute_reads_configured_answers_only
        (self : THAEngine.t) (age : Q) (a1 a2 : gmap string Raw) :
  (forall k,
     k = "height" \/ k = "weight" \/ (exists it, it ∈ THAEngine.items self /\ it_id it = k) ->
     answers_get a1 k = answers_get a2 k) ->
  THAEngine.compute self age a1 = THAEngine.compute self age a2.
Proof.
  intros H. apply compute_ext, domain_totals_ext.
  - apply H. auto.
  - apply H. auto.
  - intros it Hin _. unfold item_lnhr_of. rewrite (H (it_id it)) by eauto 6.
    reflexivity.
Qed.

Lemma X11_compute_reads_witness :
  THAEngine.compute demo_engine (40 # 1)
    (<["shoe_size" := RInt 44]> (<["waist" := RNone]> demo_answers)) =
  THAEngine.compute demo_engine (40 # 1) demo_answers.
Proof.
  apply X11_compute_reads_configured_answers_only.
  intros k Hk. unfold answers_get.
  destruct (decide (k = "shoe_size")) as [-> | Hshoe].
  { exfalso. destruct Hk as [Hk | [Hk | (it & Hin & Hk)]]; try discriminate.
    cbn in Hin. repeat (apply elem_of_cons in Hin as [-> | Hin]); try discriminate.
    inversion Hin. }
  rewrite lookup_insert_ne by congruence.
  destruct (decide (k = "waist")) as [-> | Hwaist].
  - rewrite lookup_insert_eq. reflexivity.
  - rewrite lookup_insert_ne by congruence. reflexivity.
Defined.

(** X12.  The answer to a free-text item is never scored: putting any
    value under an identifier whose items are all free text (and that is
    not "height" or "weight") leaves the outcome of the evaluation
    unchanged. *)
Theorem X12_free_text_answers_are_ignored
        (self : THAEngine.t) (age : Q) (answers : gmap string Raw) (k : string) (raw : Raw) :
  k <> "height" -> k <> "weight" ->
  (forall it, it ∈ THAEngine.items self -> it_id it = k ->
              it_input_type it = Some "free_text") ->
  THAEngine.compute self age (<[k := raw]> answers) = THAEngine.compute self age answers.
Proof.
  intros Hh Hw Hft. apply compute_ext, domain_totals_ext.
  - unfold answers_get. rewrite lookup_insert_ne by congruence. reflexivity.
  - unfold answers_get. rewrite lookup_insert_ne by congruence. reflexivity.
  - intros it Hin _. unfold item_lnhr_of.
    destruct (decide (it_id it = k)) as [Hk | Hk].
    + rewrite !raw_to_bin_free_text by (apply Hft; assumption). reflexivity.
    + unfold answers_get. rewrite lookup_insert_ne by congruence. reflexivity.
Qed.

(** ** When an evaluation succeeds *)

Lemma bmi_step_absent (self : THAEngine.t) (answers : gmap string Raw) (st : THAEngine.acc) :
  bmi_present answers = false -> THAEngine.bmi_step self answers st = Ok st.
Proof.
  unfold bmi_present, THAEngine.bmi_step. destruct st as [pd iy].
  destruct (answers_get answers "height"), (answers_get answers "weight");
    intros Hp; try discriminate Hp; reflexivity.
Qed.

Lemma dict_add_ok (d : gmap string R) (k : string) (x : R) :
  is_Some (d !! k) -> is_Ok (dict_add d k x).
Proof. intros [v Hv]. unfold dict_add. rewrite Hv. eexists. reflexivity. Qed.

Section Success.

Variable self : THAEngine.t.
Variable answers : gmap string Raw.

Lemma loop_succeeds (l : list Item) (pd iy : gmap string R) :
  (forall it, it ∈ l -> scored it = true ->
              is_Ok (item_lnhr_of answers it) /\ is_Some (pd !! it_domain it)) ->
  is_Ok (for_each (THAEngine.item_step self answers) l (pd, iy)).
Proof.
  revert pd iy. induction l as [|it l IH]; intros pd iy H; cbn [for_each].
  - eexists. reflexivity.
  - assert (Hstep : is_Ok (THAEngine.item_step self answers (pd, iy) it)).
    { destruct (scored it) eqn:Hs.
      - rewrite item_step_scored by exact Hs.
        destruct (H it) as [[x Hx] Hd]; [ left | exact Hs | ].
        rewrite Hx. cbn. destruct (dict_add_ok pd (it_domain it) x Hd) as [pd' Hpd'].
        rewrite Hpd'. cbn. eexists. reflexivity.
      - rewrite item_step_unscored by exact Hs. eexists. reflexivity. }
    destruct Hstep as [[pd1 iy1] Hst]. rewrite Hst. cbn [bind].
    apply item_step_inv in Hst as (Hdom & _).
    apply IH. intros it' Hin Hs. destruct (H it') as [Hok Hd]; [ right; exact Hin | exact Hs | ].
    split; [ exact Hok | ].
    apply elem_of_dom. rewrite Hdom. apply elem_of_dom. exact Hd.
Qed.

Lemma bmi_step_succeeds (pd iy : gmap string R) :
  (bmi_present answers = true ->
   is_Ok (bmi_lnhr_of answers) /\ is_Some (pd !! "body")) ->
  is_Ok (THAEngine.bmi_step self answers (pd, iy)).
Proof.
  intros H. destruct (bmi_present answers) eqn:Hp.
  - destruct (H eq_refl) as [[x Hx] Hd].
    rewrite bmi_step_present by exact Hp. rewrite Hx. cbn.
    destruct (dict_add_ok pd "body" x Hd) as [pd' Hpd']. rewrite Hpd'. cbn.
    eexists. reflexivity.
  - rewrite bmi_step_absent by exact Hp. eexists. reflexivity.
Qed.

Lemma clamp_entries_succeeds (l : list (string * R)) :
  (forall d v, (d, v) ∈ l ->
     exists caps, THAEngine.domains self !! d = Some caps /\ caps_ok caps) ->
  is_Ok (THAEngine.clamp_entries self l).
Proof.
  induction l as [|[d v] l IH]; intros H; cbn.
  - eexists. reflexivity.
  - destruct (H d v) as (caps & Hd & lo & hi & Hlo & Hhi & _); [ left | ].
    rewrite Hd, Hlo, Hhi. cbn.
    destruct IH as [cl Hcl]; [ intros d' v' Hin; apply (H d' v'); right; exact Hin | ].
    rewrite Hcl. cbn. eexists. reflexivity.
Qed.

End Success.

Lemma compute_succeeds (cfg : Config) (self : THAEngine.t) (age : Q)
      (answers : gmap string Raw) :
  THAEngine.__init__ cfg = Ok self ->
  (bmi_present answers = true ->
   is_Ok (bmi_lnhr_of answers) /\ is_Some (THAEngine.domains self !! "body")) ->
  (forall it, it ∈ THAEngine.items self -> scored it = true ->
     is_Ok (item_lnhr_of answers it) /\
     is_Some (THAEngine.domains self !! it_domain it)) ->
  is_Ok (THAEngine.compute self age answers).
Proof.
  intros Hinit Hbmi Hitems.
  set (pd_init := (fun _ : Caps => 0%R) <$> THAEngine.domains self).
  assert (Hacc : THAEngine.init_acc self = (pd_init, ∅)) by reflexivity.
  assert (Hinit_dom : dom pd_init = dom (THAEngine.domains self))
    by apply dom_fmap_L.
    destruct (bmi_step_succeeds self answers pd_init ∅) as [[pd0 iy0] Hb].
    { intros Hp. destruct (Hbmi Hp) as [H1 H2]. split; [ exact H1 | ].
      apply elem_of_dom. rewrite Hinit_dom. apply elem_of_dom. exact H2. }
    pose proof (bmi_step_inv _ _ _ _ _ _ Hb) as (Hdom0 & _).
    destruct (loop_succeeds self answers (THAEngine.items self) pd0 iy0) as [[pdu iy] Hl].
    { intros it Hin Hs. destruct (Hitems it Hin Hs) as [H1 H2]. split; [ exact H1 | ].
      apply elem_of_dom. rewrite Hdom0, Hinit_dom. apply elem_of_dom. exact H2. }
    pose proof (loop_totals _ _ _ _ _ _ _ Hl) as [Hdom1 _].
    destruct (clamp_entries_succeeds self (map_to_list pdu)) as [cl Hcl].
    { intros d v Hin. apply elem_of_map_to_list in Hin.
      assert (Hd : is_Some (THAEngine.domains self !! d)).
      { apply elem_of_dom. rewrite <- Hinit_dom, <- Hdom0, <- Hdom1.
        apply elem_of_dom. eauto. }
      destruct Hd as [caps Hcaps]. exists caps. split; [ exact Hcaps | ].
      eapply init_caps; eassumption. }
    unfold THAEngine.compute, THAEngine.domain_totals.
    rewrite Hacc, Hb. cbn [bind]. rewrite Hl. cbn [bind]. rewrite Hcl. cbn [bind].
    eexists. reflexivity.
Qed.



Lemma X12_free_text_witness :
  THAEngine.compute notes_engine (40 # 1) (<["notes" := RStr "feeling fine"]> smoker_answers)
  = THAEngine.compute notes_engine (40 # 1) smoker_answers.
Proof.
  apply X12_free_text_answers_are_ignored; try discriminate.
  intros it Hin Hid. cbn in Hin.
  repeat (apply elem_of_cons in Hin as [-> | Hin]);
    [ discriminate Hid | reflexivity | inversion Hin ].
Defined.

(** ** Which error an evaluation reports *)

(** X14.  Evaluation stops at the first item, in sorted order, that
    cannot be scored: when the BMI step and all the scored items before
    an item can be served, and that item's classification or hazard-ratio
    lookup raises, the evaluation raises that same error and returns no
    partial result. *)
Theorem X14_first_failing_item_is_reported
        (self : THAEngine.t) (age : Q) (answers : gmap string Raw)
        (l1 l2 : list Item) (it : Item) (e : exn) :
  THAEngine.items self = l1 ++ it :: l2 ->
  (bmi_present answers = true ->
   is_Ok (bmi_lnhr_of answers) /\ is_Some (THAEngine.domains self !! "body")) ->
  (forall it', it' ∈ l1 -> scored it' = true ->
     is_Ok (item_lnhr_of answers it') /\
     is_Some (THAEngine.domains self !! it_domain it')) ->
  scored it = true ->
  item_lnhr_of answers it = Err e ->
  THAEngine.compute self age answers = Err e.
Proof.
  intros Hitems Hbmi Hl1 Hs He.
  set (pd_init := (fun _ : Caps => 0%R) <$> THAEngine.domains self).
  assert (Hacc : THAEngine.init_acc self = (pd_init, ∅)) by reflexivity.
  assert (Hinit_dom : dom pd_init = dom (THAEngine.domains self))
    by apply dom_fmap_L.
  destruct (bmi_step_succeeds self answers pd_init ∅) as [[pd0 iy0] Hb].
  { intros Hp. destruct (Hbmi Hp) as [H1 H2]. split; [ exact H1 | ].
    apply elem_of_dom. rewrite Hinit_dom. apply elem_of_dom. exact H2. }
  pose proof (bmi_step_inv _ _ _ _ _ _ Hb) as (Hdom0 & _).
  destruct (loop_succeeds self answers l1 pd0 iy0) as [st1 Hl].
  { intros it' Hin Hs'. destruct (Hl1 it' Hin Hs') as [H1 H2]. split; [ exact H1 | ].
    apply elem_of_dom. rewrite Hdom0, Hinit_dom. apply elem_of_dom. exact H2. }
  apply (compute_fails_at self answers age it st1).
  - exists l1, l2, (pd0, iy0). rewrite Hacc. auto.
  - apply item_step_fails; assumption.
Qed.

Lemma X14_first_failing_item_witness :
  THAEngine.compute demo_engine (40 # 1)
    (<["veg_servings" := RStr "plenty"]> (<["waist" := RInt (-5)]> ∅))
  = Err (CannotInterpret "veg_servings").
Proof.
  apply (X14_first_failing_item_is_reported demo_engine (40 # 1) _
           [smoking_item] [waist_item; symptoms_item] veg_item).
  - reflexivity.
  - intros Hp. vm_compute in Hp. discriminate.
  - intros it' Hin _. apply elem_of_cons in Hin as [-> | Hin]; [ | inversion Hin ].
    split; [ eexists; run_engine; reflexivity | eexists; vm_compute; reflexivity ].
  - reflexivity.
  - vm_compute. reflexivity.
Defined.

(** X15.  When height and weight are both answered and the height is not
    a number (a string, a list or a pair), the evaluation raises a
    TypeError before any item is scored, whatever the rest of the
    answers. *)
Theorem X15_non_numeric_height_raises
        (self : THAEngine.t) (age : Q) (answers : gmap string Raw) :
  bmi_present answers = true ->
  THAEngine.as_number (answers_get answers "height") = Err TypeError ->
  THAEngine.compute self age answers = Err TypeError.
Proof.
  intros Hp Hh. apply compute_fails. unfold THAEngine.domain_totals, THAEngine.init_acc.
  rewrite bmi_step_present by exact Hp.
  assert (Hb : bmi_lnhr_of answers = Err TypeError); [ | rewrite Hb; reflexivity ].
  unfold bmi_lnhr_of, THAEngine._calculate_bmi. unfold bmi_present in Hp.
  destruct (answers_get answers "height"); try discriminate;
    destruct (answers_get answers "weight"); try discriminate; reflexivity.
Qed.

Lemma X15_non_numeric_height_witness :
  THAEngine.compute demo_engine (40 # 1)
    (<["height" := RStr "5 ft 10"]> (<["weight" := RInt 180]> ∅)) = Err TypeError.
Proof.
  apply X15_non_numeric_height_raises; vm_compute; reflexivity.
Defined.

(** ** The shape of a result *)

Lemma sum_fold_left (l : list R) (a : R) :
  fold_left Rplus l a = (a + foldr Rplus 0 l)%R.
Proof.
  revert a. induction l as [|x l IH]; intros a; cbn; [ lra | ].
  rewrite IH. lra.
Qed.

Lemma sum_foldr_perm (l1 l2 : list R) :
  l1 ≡ₚ l2 -> foldr Rplus 0%R l1 = foldr Rplus 0%R l2.
Proof. induction 1; cbn; lra. Qed.





Lemma loop_item_years_dom (self : THAEngine.t) (answers : gmap string Raw)
      (l : list Item) (pd iy pd' iy' : gmap string R) :
  for_each (THAEngine.item_step self answers) l (pd, iy) = Ok (pd', iy') ->
  dom iy' = dom iy ∪ scored_ids l.
Proof.
  revert pd iy. induction l as [|it l IH]; intros pd iy H; cbn in H.
  - injection H as <- <-. unfold scored_ids. cbn. set_solver.
  - inv_bind H. destruct a as [pd1 iy1].
    apply item_step_inv in Ha as (_ & _ & Hun & Hsc).
    rewrite (IH _ _ H). unfold scored_ids. rewrite filter_cons.
    destruct (decide (scored it = true)) as [Hs | Hs].
    + destruct (Hsc Hs) as (x & _ & _ & ->).
      rewrite dom_insert_L, fmap_cons. cbn. set_solver.
    + rewrite Hun by (destruct (scored it); congruence). reflexivity.
Qed.

(** X17.  A result has one domain-years entry for every configured domain
    and no other; its item years are recorded under the identifiers of
    the items other than "height" and "weight", answered or not, and under
    "bmi_calculated" exactly when height and weight are both answered. *)
Theorem X17_result_keys
        (self : THAEngine.t) (age : Q) (answers : gmap string Raw) (r : THAResult) :
  THAEngine.compute self age answers = Ok r ->
  dom (domainYears r) = dom (THAEngine.domains self) /\
  dom (itemYears r) =
    scored_ids (THAEngine.items self) ∪
    (if bmi_present answers then {["bmi_calculated"]} else ∅).
Proof.
  intros Hr. apply compute_inv in Hr as (pd & iy & Ht & -> & -> & _).
  split.
  - rewrite dom_fmap_L. apply (domain_totals_spec _ _ _ _ Ht).
  - apply domain_totals_inv in Ht as ([pd0 iy0] & pdu & cl & Hb & Hl & _).
    rewrite (loop_item_years_dom _ _ _ _ _ _ _ Hl).
    apply bmi_step_inv in Hb as (_ & _ & Habs & Hpres).
    destruct (bmi_present answers).
    + destruct (Hpres eq_refl) as (x & _ & _ & ->).
      rewrite dom_insert_L, dom_empty_L. set_solver.
    + rewrite (Habs eq_refl), dom_empty_L. set_solver.
Qed.

Lemma X17_result_keys_witness :
  exists r,
    THAEngine.compute demo_engine (40 # 1) bmi_answers = Ok r /\
    dom (itemYears r) =
      {["smoking"; "veg_servings"; "waist"; "symptoms"; "bmi_calculated"]}.
Proof.
  destruct bmi_compute as [r Hr]. exists r. split; [ exact Hr | ].
  destruct (X17_result_keys demo_engine _ _ r Hr) as [_ ->].
  apply set_eq. intros k. vm_compute bmi_present. unfold scored_ids. cbn.
  set_solver.
Defined.

(** X18.  An item other than "height" and "weight" that has no answer
    (no entry, or None) is scored with its missing_hr, and contributes
    exactly 0 years when no missing_hr is configured. *)
Theorem X18_unanswered_item_is_neutral
        (self : THAEngine.t) (age : Q) (answers : gmap string Raw)
        (r : THAResult) (it : Item) :
  THAEngine.compute self age answers = Ok r ->
  NoDup (it_id <$> THAEngine.items self) ->
  it ∈ THAEngine.items self ->
  scored it = true ->
  answers_get answers (it_id it) = RNone ->
  itemYears r !! it_id it =
    Some (ln (Q2R (default (1 # 1)%Q (it_missing_hr it))) / THAEngine.b self)%R /\
  (it_missing_hr it = None -> itemYears r !! it_id it = Some 0%R).
Proof.
  intros Hr Hnd Hin Hs Hnone.
  apply compute_inv in Hr as (pd & iy & Ht & _ & -> & _).
  destruct (domain_totals_item_years_in _ _ _ _ _ Ht Hnd Hin Hs) as (x & Hx & _ & Hy).
  unfold item_lnhr_of in Hx. rewrite Hnone in Hx. cbn in Hx.
  unfold THAEngine._item_lnhr in Hx. cbn in Hx.
  destruct (Qle_bool _ 0); [ discriminate | ]. injection Hx as <-.
  split; [ exact Hy | ].
  intros Hm. rewrite Hy, Hm. cbn [default]. rewrite ln_Q2R_one.
  f_equal. unfold Rdiv. apply Rmult_0_l.
Qed.

Lemma X18_unanswered_item_witness :
  exists r,
    THAEngine.compute demo_engine (40 # 1) demo_answers = Ok r /\
    itemYears r !! "waist" = Some 0%R.
Proof.
  destruct demo_compute as [r Hr]. exists r. split; [ exact Hr | ].
  refine (proj2 (X18_unanswered_item_is_neutral demo_engine _ _ r waist_item Hr
                   _ _ eq_refl eq_refl) eq_refl).
  - apply (bool_decide_unpack _). vm_compute. reflexivity.
  - right. right. left.
Defined.

(** ** What-if, continued *)



(** ** One-step gains *)

Lemma gain_step_gain_of (self : THAEngine.t) (answers : gmap string Raw)
      (gains : gmap string R) (it : Item) :
  THAEngine.gain_step self answers gains it =
    match gain_of self answers it with
    | Done g => Done (<[it_id it := g]> gains)
    | Raised e => Raised e
    | MathDomainError => MathDomainError
    end.
Proof.
  unfold THAEngine.gain_step, gain_of.
  destruct (answers_get answers (it_id it)) eqn:Eraw; [ reflexivity | .. ];
    (destruct (_raw_to_bin it _) as [[curr|]|]; [ | reflexivity | reflexivity ];
     destruct (_ <=? curr); [ reflexivity | ];
     destruct (py_index (it_hr it) curr); [ | reflexivity ];
     destruct (py_index (it_hr it) (curr + 1)); [ | reflexivity ];
     destruct (Qle_bool _ 0); [ reflexivity | ];
     destruct (Qle_bool _ 0); reflexivity).
Qed.

Section Gains.

Variable self : THAEngine.t.
Variable answers : gmap string Raw.

Lemma gains_loop_inv (l : list Item) (gains gains' : gmap string R) :
  for_each_outcome (THAEngine.gain_step self answers) l gains = Done gains' ->
  dom gains' = dom gains ∪ list_to_set (it_id <$> l) /\
  (forall k, k ∉ it_id <$> l -> gains' !! k = gains !! k) /\
  (NoDup (it_id <$> l) ->
   forall it, it ∈ l ->
     exists g, gain_of self answers it = Done g /\ gains' !! it_id it = Some g).
Proof.
  revert gains. induction l as [|it0 l IH]; intros gains H; cbn [for_each_outcome] in H.
  - injection H as <-. split; [ cbn; set_solver | ].
    split; [ reflexivity | intros _ it Hin; inversion Hin ].
  - rewrite gain_step_gain_of in H.
    destruct (gain_of self answers it0) as [g0| |] eqn:Eg; try discriminate.
    destruct (IH _ H) as (Hdom & Hother & Hin).
    split; [ rewrite Hdom, dom_insert_L, fmap_cons; cbn; set_solver | ].
    split.
    + intros k Hk. rewrite fmap_cons in Hk. apply not_elem_of_cons in Hk as [Hne Hk].
      rewrite (Hother k Hk). apply lookup_insert_ne. congruence.
    + intros Hnd it Hit. rewrite fmap_cons in Hnd. apply NoDup_cons in Hnd as [Hfresh Hnd].
      apply elem_of_cons in Hit as [-> | Hit].
      * exists g0. split; [ exact Eg | ].
        rewrite (Hother _ Hfresh). apply lookup_insert_eq.
      * apply Hin; assumption.
Qed.

Lemma gains_loop_succeeds (l : list Item) (gains : gmap string R) :
  (forall it, it ∈ l -> exists g, gain_of self answers it = Done g) ->
  exists gains', for_each_outcome (THAEngine.gain_step self answers) l gains = Done gains'.
Proof.
  revert gains. induction l as [|it0 l IH]; intros gains H; cbn [for_each_outcome].
  - eauto.
  - rewrite gain_step_gain_of. destruct (H it0) as [g Hg]; [ left | ].
    rewrite Hg. apply IH. intros it Hin. apply H. right. exact Hin.
Qed.

End Gains.

(** X20.  When [one_step_gains_months] returns, it has one entry for
    every configured item, "height" and "weight" included, and no other;
    with distinct identifiers the entry is 0 for an item that is
    unanswered, whose answer the classifier rejects (the error is
    swallowed), that is classified to no bin, or that is already at or
    beyond the last bin. *)
Theorem X20_gains_entries_and_zero_cases
        (self : THAEngine.t) (answers : gmap string Raw) (gains : gmap string R) :
  THAEngine.one_step_gains_months self answers = Done gains ->
  dom gains = list_to_set (it_id <$> THAEngine.items self) /\
  (NoDup (it_id <$> THAEngine.items self) ->
   forall it, it ∈ THAEngine.items self ->
     (answers_get answers (it_id it) = RNone \/
      (exists e, _raw_to_bin it (answers_get answers (it_id it)) = Err e) \/
      _raw_to_bin it (answers_get answers (it_id it)) = Ok None \/
      (exists curr, _raw_to_bin it (answers_get answers (it_id it)) = Ok (Some curr) /\
                    Z.of_nat (length (it_hr it)) - 1 <= curr)) ->
     gains !! it_id it = Some 0%R).
Proof.
  unfold THAEngine.one_step_gains_months. intros H.
  apply gains_loop_inv in H as (Hdom & _ & Hin).
  split; [ rewrite Hdom, dom_empty_L; set_solver | ].
  intros Hnd it Hit Hcase.
  destruct (Hin Hnd it Hit) as (g & Hg & ->). f_equal.
  unfold gain_of in Hg.
  destruct Hcase as [Hnone | [[e He] | [Hn | (curr & Hc & Hbest)]]].
  - rewrite Hnone in Hg. cbn in Hg. congruence.
  - rewrite He in Hg. congruence.
  - rewrite Hn in Hg. congruence.
  - rewrite Hc in Hg. apply Z.leb_le in Hbest. rewrite Hbest in Hg. congruence.
Qed.

(** X21.  With distinct identifiers, for an item classified to a valid
    bin that is not the last one, the gain is twelve times the years
    between the hazard ratio of that bin and of the next; on an engine
    returned by the constructor it is not negative when the next hazard
    ratio is not larger, and negative when it is larger. *)
Theorem X21_gain_is_months_to_next_bin
        (cfg : Config) (self : THAEngine.t) (answers : gmap string Raw)
        (gains : gmap string R) (it : Item) (curr : Z) :
  THAEngine.__init__ cfg = Ok self ->
  THAEngine.one_step_gains_months self answers = Done gains ->
  NoDup (it_id <$> THAEngine.items self) ->
  it ∈ THAEngine.items self ->
  _raw_to_bin it (answers_get answers (it_id it)) = Ok (Some curr) ->
  0 <= curr < Z.of_nat (length (it_hr it)) - 1 ->
  exists hr_now hr_next g,
    it_hr it !! Z.to_nat curr = Some hr_now /\
    it_hr it !! S (Z.to_nat curr) = Some hr_next /\
    (0 < hr_now)%Q /\ (0 < hr_next)%Q /\
    gains !! it_id it = Some g /\
    g = (12 * (ln (Q2R hr_now) / THAEngine.b self - ln (Q2R hr_next) / THAEngine.b self))%R /\
    ((hr_next <= hr_now)%Q -> (0 <= g)%R) /\
    ((hr_now < hr_next)%Q -> (g < 0)%R).
Proof.
  intros Hinit H Hnd Hit Hc [Hlo Hhi].
  pose proof (init_b_pos _ _ Hinit) as Hb.
  unfold THAEngine.one_step_gains_months in H.
  apply gains_loop_inv in H as (_ & _ & Hin).
  destruct (Hin Hnd it Hit) as (g & Hg & Hl).
  unfold gain_of in Hg. rewrite Hc in Hg.
  assert (Hnb : (Z.of_nat (length (it_hr it)) - 1 <=? curr) = false)
    by (apply Z.leb_gt; lia).
  rewrite Hnb in Hg. unfold py_index in Hg.
  assert (H0 : (0 <=? curr) = true) by (apply Z.leb_le; lia).
  assert (H1 : (0 <=? curr + 1) = true) by (apply Z.leb_le; lia).
  assert (H2 : (curr <? Z.of_nat (length (it_hr it))) = true) by (apply Z.ltb_lt; lia).
  assert (H3 : (curr + 1 <? Z.of_nat (length (it_hr it))) = true) by (apply Z.ltb_lt; lia).
  cbn zeta in Hg. rewrite H0, H1 in Hg. cbn iota in Hg.
  rewrite H0, H1, H2, H3 in Hg. cbn [andb] in Hg.
  replace (Z.to_nat (curr + 1)) with (S (Z.to_nat curr)) in Hg by lia.
  destruct (it_hr it !! Z.to_nat curr) as [hr_now|] eqn:E1; [ | discriminate ].
  destruct (it_hr it !! S (Z.to_nat curr)) as [hr_next|] eqn:E2; [ | discriminate ].
  destruct (Qle_bool hr_now 0) eqn:P1; [ discriminate | ].
  destruct (Qle_bool hr_next 0) eqn:P2; [ discriminate | ].
  apply Qle_bool_false in P1, P2. injection Hg as <-.
  exists hr_now, hr_next,
    ((ln (Q2R hr_now) - ln (Q2R hr_next)) / THAEngine.b self * 12)%R.
  split; [ reflexivity | ]. split; [ reflexivity | ].
  split; [ exact P1 | ]. split; [ exact P2 | ]. split; [ exact Hl | ].
  split; [ field; lra | ].
  assert (Hinv : (0 < / THAEngine.b self)%R) by (apply Rinv_0_lt_compat, Hb).
  split.
  - intros Hle. pose proof (ln_Q2R_le _ _ P2 Hle) as Hln.
    unfold Rdiv. nra.
  - intros Hlt. apply Qlt_Rlt in Hlt. pose proof (Q2R_pos _ P1) as Hp.
    pose proof (ln_increasing _ _ Hp Hlt) as Hln.
    unfold Rdiv. nra.
Qed.

(** X22.  [one_step_gains_months] returns normally, whatever the answers,
    on an engine all of whose hazard ratios are positive and whose
    classified bins are never negative: an answer the classifier rejects
    is given a gain of 0 instead of aborting, unlike in [compute]. *)
Theorem X22_gains_do_not_raise
        (self : THAEngine.t) (answers : gmap string Raw) :
  (forall it h, it ∈ THAEngine.items self -> h ∈ it_hr it -> (0 < h)%Q) ->
  (forall it curr, it ∈ THAEngine.items self ->
     _raw_to_bin it (answers_get answers (it_id it)) = Ok (Some curr) -> 0 <= curr) ->
  exists gains, THAEngine.one_step_gains_months self answers = Done gains.
Proof.
  intros Hpos Hbin. unfold THAEngine.one_step_gains_months.
  apply gains_loop_succeeds. intros it Hit. unfold gain_of.
  destruct (_raw_to_bin it _) as [[curr|]|] eqn:Hc; eauto.
  destruct (Z.of_nat (length (it_hr it)) - 1 <=? curr) eqn:Hnb; eauto.
  apply Z.leb_gt in Hnb. pose proof (Hbin it curr Hit Hc) as Hlo.
  unfold py_index.
  assert (H0 : (0 <=? curr) = true) by (apply Z.leb_le; lia).
  assert (H1 : (0 <=? curr + 1) = true) by (apply Z.leb_le; lia).
  assert (H2 : (curr <? Z.of_nat (length (it_hr it))) = true) by (apply Z.ltb_lt; lia).
  assert (H3 : (curr + 1 <? Z.of_nat (length (it_hr it))) = true) by (apply Z.ltb_lt; lia).
  cbn zeta. rewrite H0, H1. cbn iota. rewrite H0, H1, H2, H3. cbn [andb].
  destruct (it_hr it !! Z.to_nat curr) as [hr_now|] eqn:E1;
    [ | apply lookup_ge_None in E1; lia ].
  destruct (it_hr it !! Z.to_nat (curr + 1)) as [hr_next|] eqn:E2;
    [ | apply lookup_ge_None in E2; lia ].
  rewrite !Qle_bool_pos_false; eauto.
  - apply (Hpos it); [ exact Hit | eapply list_elem_of_lookup_2; exact E2 ].
  - apply (Hpos it); [ exact Hit | eapply list_elem_of_lookup_2; exact E1 ].
Qed.

Lemma demo_gains :
  exists gains, THAEngine.one_step_gains_months demo_engine demo_answers = Done gains.
Proof. eexists. run_engine. reflexivity. Qed.

Lemma demo_engine_distinct_ids : NoDup (it_id <$> THAEngine.items demo_engine).
Proof. apply (bool_decide_unpack _). vm_compute. reflexivity. Qed.

Lemma X20_gains_entries_witness :
  exists gains,
    THAEngine.one_step_gains_months demo_engine demo_answers = Done gains /\
    dom gains = {["smoking"; "veg_servings"; "waist"; "symptoms"]} /\
    gains !! "waist" = Some 0%R.
Proof.
  destruct demo_gains as [gains Hg]. exists gains. split; [ exact Hg | ].
  destruct (X20_gains_entries_and_zero_cases demo_engine demo_answers gains Hg)
    as [Hdom Hzero].
  split.
  - rewrite Hdom. cbn. set_solver.
  - apply (Hzero demo_engine_distinct_ids waist_item).
    + right. right. left.
    + left. reflexivity.
Defined.

Lemma X21_gain_witness :
  exists gains g,
    THAEngine.one_step_gains_months demo_engine demo_answers = Done gains /\
    gains !! "smoking" = Some g /\ (0 <= g)%R.
Proof.
  destruct demo_gains as [gains Hg].
  destruct (X21_gain_is_months_to_next_bin demo_cfg demo_engine demo_answers gains
              smoking_item 0 demo_engine_init Hg demo_engine_distinct_ids)
    as (hr_now & hr_next & g & Hnow & Hnext & _ & _ & Hl & _ & Hsign & _).
  - left.
  - vm_compute. reflexivity.
  - vm_compute. split; [ discriminate | reflexivity ].
  - exists gains, g. split; [ exact Hg | ]. split; [ exact Hl | ].
    apply Hsign. cbn in Hnow, Hnext. injection Hnow as <-. injection Hnext as <-.
    vm_compute. discriminate.
Defined.

Lemma X22_gains_witness :
  exists gains,
    THAEngine.one_step_gains_months demo_engine
      (<["smoking" := RStr "sometimes"]> demo_answers) = Done gains.
Proof.
  apply X22_gains_do_not_raise.
  - intros it h Hin Hh. cbn in Hin.
    repeat (apply elem_of_cons in Hin as [-> | Hin]); [ .. | inversion Hin ];
      cbn in Hh;
      repeat (apply elem_of_cons in Hh as [-> | Hh]); try reflexivity; inversion Hh.
  - intros it curr Hin Hc. cbn in Hin.
    repeat (apply elem_of_cons in Hin as [-> | Hin]); [ .. | inversion Hin ];
      vm_compute in Hc; try discriminate Hc; injection Hc as <-; lia.
Defined.

(** ** The default answers of the command line *)

Lemma default_answers_fold (l : list Item) (acc : gmap string Raw) :
  (forall k, k ∉ it_id <$> l ->
     fold_left (fun answers it =>
                  <[it_id it := RInt (Z.of_nat (length (it_hr it)) / 2)]> answers) l acc !! k
     = acc !! k) /\
  (NoDup (it_id <$> l) ->
   forall it, it ∈ l ->
     fold_left (fun answers it =>
                  <[it_id it := RInt (Z.of_nat (length (it_hr it)) / 2)]> answers) l acc
       !! it_id it = Some (RInt (Z.of_nat (length (it_hr it)) / 2))).
Proof.
  revert acc. induction l as [|it0 l IH]; intros acc; cbn [fold_left].
  - split; [ reflexivity | intros _ it Hin; inversion Hin ].
  - destruct (IH (<[it_id it0 := RInt (Z.of_nat (length (it_hr it0)) / 2)]> acc))
      as [Hother Hin].
    split.
    + intros k Hk. rewrite fmap_cons in Hk. apply not_elem_of_cons in Hk as [Hne Hk].
      rewrite (Hother k Hk). apply lookup_insert_ne. congruence.
    + intros Hnd it Hit. rewrite fmap_cons in Hnd. apply NoDup_cons in Hnd as [Hfresh Hnd].
      apply elem_of_cons in Hit as [-> | Hit].
      * rewrite (Hother _ Hfresh). apply lookup_insert_eq.
      * apply Hin; assumption.
Qed.

Lemma default_answers_lookup (cfg : Config) (it : Item) :
  NoDup (it_id <$> cfg_items cfg) ->
  it ∈ cfg_items cfg ->
  answers_get (default_answers cfg) (it_id it) = RInt (Z.of_nat (length (it_hr it)) / 2).
Proof.
  intros Hnd Hin. unfold answers_get, default_answers.
  destruct (default_answers_fold (cfg_items cfg) ∅) as [_ H].
  rewrite (H Hnd it Hin). reflexivity.
Qed.

Lemma middle_bin_valid (n : nat) :
  (1 <= n)%nat -> 0 <= Z.of_nat n / 2 <= Z.of_nat n - 1.
Proof.
  intros Hn. split; [ apply Z.div_pos; lia | ].
  assert (Z.of_nat n / 2 < Z.of_nat n) by (apply Z.div_lt; lia). lia.
Qed.

(** X23.  With distinct identifiers, the default answers of the command
    line give every item the index of its middle bin, len(hr) // 2; for an
    item with at least one hazard ratio that is not free text and has no
    range rule this is a valid index and the classifier returns it, so the
    item is scored at its middle bin. *)
Theorem X23_default_answers_pick_middle_bin (cfg : Config) (it : Item) :
  NoDup (it_id <$> cfg_items cfg) ->
  it ∈ cfg_items cfg ->
  answers_get (default_answers cfg) (it_id it) = RInt (Z.of_nat (length (it_hr it)) / 2) /\
  (plain_item it -> (1 <= length (it_hr it))%nat ->
   0 <= Z.of_nat (length (it_hr it)) / 2 <= Z.of_nat (length (it_hr it)) - 1 /\
   _raw_to_bin it (answers_get (default_answers cfg) (it_id it))
     = Ok (Some (Z.of_nat (length (it_hr it)) / 2))).
Proof.
  intros Hnd Hin.
  pose proof (default_answers_lookup cfg it Hnd Hin) as Hget.
  split; [ exact Hget | ].
  intros [Hft Hrng] Hlen.
  pose proof (middle_bin_valid _ Hlen) as Hmid.
  split; [ exact Hmid | ].
  rewrite Hget, raw_to_bin_int_plain by assumption.
  destruct Hmid as [H0 H1]. apply Z.leb_le in H0, H1. rewrite H0, H1. reflexivity.
Qed.

Lemma X23_default_answers_witness :
  answers_get (default_answers demo_cfg) "symptoms" = RInt 1 /\
  _raw_to_bin smoking_item (answers_get (default_answers demo_cfg) "smoking")
    = Ok (Some 1).
Proof.
  assert (Hnd : NoDup (it_id <$> cfg_items demo_cfg))
    by (apply (bool_decide_unpack _); vm_compute; reflexivity).
  split.
  - apply (X23_default_answers_pick_middle_bin demo_cfg symptoms_item Hnd).
    right. right. right. left.
  - destruct (X23_default_answers_pick_middle_bin demo_cfg smoking_item Hnd)
      as [_ H]; [ right; right; left | ].
    apply H; [ split; [ discriminate | reflexivity ] | cbn; lia ].
Defined.

(** ** The smoke test of the command line *)

Lemma default_answers_values (cfg : Config) (k : string) :
  (answers_get (default_answers cfg) k = RNone /\ k ∉ it_id <$> cfg_items cfg) \/
  (exists z, answers_get (default_answers cfg) k = RInt z /\ 1 <= z /\
             k ∈ it_id <$> cfg_items cfg /\
             exists it, it ∈ cfg_items cfg /\ it_id it = k /\
                        z = Z.of_nat (length (it_hr it)) / 2) \/
  (exists it, it ∈ cfg_items cfg /\ it_id it = k /\ (length (it_hr it) < 2)%nat).
Proof.
  unfold answers_get, default_answers.
  assert (Hgen : forall (l : list Item) (acc : gmap string Raw),
    fold_left (fun answers it =>
                 <[it_id it := RInt (Z.of_nat (length (it_hr it)) / 2)]> answers) l acc !! k
    = acc !! k /\ k ∉ it_id <$> l \/
    exists it, it ∈ l /\ it_id it = k /\
      fold_left (fun answers it =>
                   <[it_id it := RInt (Z.of_nat (length (it_hr it)) / 2)]> answers) l acc !! k
      = Some (RInt (Z.of_nat (length (it_hr it)) / 2))).
  { induction l as [|it0 l IH] using rev_ind; intros acc.
    - left. split; [ reflexivity | apply not_elem_of_nil ].
    - rewrite fold_left_app. cbn [fold_left].
      destruct (decide (it_id it0 = k)) as [Heq | Hne].
      + right. exists it0. split; [ apply elem_of_app; right; left | ].
        split; [ exact Heq | ]. rewrite <- Heq. apply lookup_insert_eq.
      + rewrite lookup_insert_ne by exact Hne.
        destruct (IH acc) as [[H1 H2] | (it & Hin & Hid & Hl)].
        * left. split; [ exact H1 | ].
          rewrite fmap_app, elem_of_app. intros [H | H]; [ exact (H2 H) | ].
          cbn in H. apply elem_of_cons in H as [H | H]; [ congruence | inversion H ].
        * right. exists it. split; [ apply elem_of_app; left; exact Hin | ]. auto. }
  destruct (Hgen (cfg_items cfg) ∅) as [[H1 H2] | (it & Hin & Hid & Hl)].
  - left. rewrite H1, lookup_empty. auto.
  - destruct (decide (length (it_hr it) < 2)%nat) as [Hshort | Hlong].
    + right. right. eauto.
    + right. left. exists (Z.of_nat (length (it_hr it)) / 2).
      rewrite Hl. split; [ reflexivity | ].
      split; [ apply Z.div_le_lower_bound; lia | ].
      split; [ rewrite <- Hid; apply list_elem_of_fmap; eauto | eauto ].
Qed.

Lemma default_bmi_succeeds (cfg : Config) :
  (forall it, it ∈ cfg_items cfg -> (2 <= length (it_hr it))%nat) ->
  bmi_present (default_answers cfg) = true ->
  is_Ok (bmi_lnhr_of (default_answers cfg)) /\
  "height" ∈ it_id <$> cfg_items cfg /\ "weight" ∈ it_id <$> cfg_items cfg.
Proof.
  intros Hlen Hp. unfold bmi_lnhr_of. unfold bmi_present in Hp.
  destruct (default_answers_values cfg "height")
    as [[Hh _] | [(h & Hh & _ & Hhin & _) | (it & Hin & _ & Hs)]];
    [ rewrite Hh in Hp; discriminate | | specialize (Hlen it Hin); lia ].
  destruct (default_answers_values cfg "weight")
    as [[Hw _] | [(w & Hw & _ & Hwin & _) | (it & Hin & _ & Hs)]];
    [ rewrite Hh, Hw in Hp; discriminate | | specialize (Hlen it Hin); lia ].
  rewrite Hh, Hw.
  rewrite (calculate_bmi_numeric (RInt h) (RInt w) (inject_Z h) (inject_Z w))
    by reflexivity.
  cbn [bind]. split; [ eexists; reflexivity | auto ].
Qed.

Lemma default_item_lnhr (cfg : Config) (it : Item) :
  NoDup (it_id <$> cfg_items cfg) ->
  it ∈ cfg_items cfg ->
  plain_item it ->
  (1 <= length (it_hr it))%nat ->
  (forall hr, hr ∈ it_hr it -> (0 < hr)%Q) ->
  exists hr,
    it_hr it !! Z.to_nat (Z.of_nat (length (it_hr it)) / 2) = Some hr /\
    item_lnhr_of (default_answers cfg) it = Ok (ln (Q2R hr)).
Proof.
  intros Hnd Hin [Hft Hrng] Hlen Hpos.
  pose proof (middle_bin_valid _ Hlen) as [H0 H1].
  destruct (it_hr it !! Z.to_nat (Z.of_nat (length (it_hr it)) / 2)) as [hr|] eqn:Ehr;
    [ | apply lookup_ge_None in Ehr; lia ].
  exists hr. split; [ reflexivity | ].
  assert (Hbin : _raw_to_bin it (answers_get (default_answers cfg) (it_id it))
                 = Ok (Some (Z.of_nat (length (it_hr it)) / 2))).
  { rewrite (default_answers_lookup cfg it Hnd Hin).
    rewrite raw_to_bin_int_plain by assumption.
    apply Z.leb_le in H0 as H0'. apply Z.leb_le in H1 as H1'.
    rewrite H0', H1'. reflexivity. }
  assert (Hsel : selected_hr it (Some (Z.of_nat (length (it_hr it)) / 2)) = Ok hr).
  { unfold selected_hr, py_index. cbn zeta.
    apply Z.leb_le in H0 as H0'. rewrite H0'.
    assert (Hlt : (Z.of_nat (length (it_hr it)) / 2 <? Z.of_nat (length (it_hr it))) = true)
      by (apply Z.ltb_lt; lia).
    rewrite H0', Hlt. cbn [andb]. rewrite Ehr. reflexivity. }
  rewrite (item_lnhr_selected _ _ _ _ Hbin Hsel).
  rewrite Qle_bool_pos_false; [ reflexivity | ].
  apply Hpos. eapply list_elem_of_lookup_2, Ehr.
Qed.

(** X24.  The smoke test of the command line (no answers file): on a
    configuration that passes the constructor's checks, has distinct item
    identifiers, whose scored items take a bin index directly (no free
    text, no numeric ranges), have positive hazard ratios and a configured
    domain, and which configures a "body" domain if it has both a "height"
    and a "weight" item, the run succeeds, and every scored item is
    reported with the years of its middle hazard ratio hr[len(hr) // 2]. *)
Theorem X24_default_run_succeeds (cfg : Config) (age : Q) :
  config_checks cfg ->
  NoDup (it_id <$> cfg_items cfg) ->
  (forall it, it ∈ cfg_items cfg -> scored it = true ->
     plain_item it /\
     (forall hr, hr ∈ it_hr it -> (0 < hr)%Q) /\
     is_Some (cfg_domains cfg !! it_domain it)) ->
  ("height" ∈ it_id <$> cfg_items cfg -> "weight" ∈ it_id <$> cfg_items cfg ->
   is_Some (cfg_domains cfg !! "body")) ->
  exists self r,
    THAEngine.__init__ cfg = Ok self /\
    main cfg age None = Ok r /\
    forall it, it ∈ cfg_items cfg -> scored it = true ->
      exists hr,
        it_hr it !! Z.to_nat (Z.of_nat (length (it_hr it)) / 2) = Some hr /\
        itemYears r !! it_id it = Some (ln (Q2R hr) / THAEngine.b self)%R.
Proof.
  intros Hchk Hnd Hitems Hbody.
  destruct (proj2 (init_ok cfg) Hchk) as [self Hinit].
  destruct (init_inv _ _ Hinit) as (_ & _ & Hdom & Hsorted & _).
  destruct Hchk as (_ & _ & Hshape).
  assert (Hlen : forall it, it ∈ cfg_items cfg -> (2 <= length (it_hr it))%nat)
    by (intros it Hin; apply (Hshape it Hin)).
  assert (Hmem : forall it, it ∈ THAEngine.items self <-> it ∈ cfg_items cfg)
    by (intros it; rewrite Hsorted; apply elem_of_sorted_by_order).
  assert (Hnd' : NoDup (it_id <$> THAEngine.items self))
    by (rewrite Hsorted, sorted_by_order_perm; exact Hnd).
  assert (Hok : is_Ok (THAEngine.compute self age (default_answers cfg))).
  { apply (compute_succeeds cfg); [ exact Hinit | | ].
    - intros Hp. destruct (default_bmi_succeeds cfg Hlen Hp) as (H1 & Hh & Hw).
      split; [ exact H1 | ]. rewrite Hdom. apply Hbody; assumption.
    - intros it Hin Hs. apply Hmem in Hin.
      destruct (Hitems it Hin Hs) as (Hplain & Hpos & Hd).
      assert (H1 : (1 <= length (it_hr it))%nat) by (specialize (Hlen it Hin); lia).
      destruct (default_item_lnhr cfg it Hnd Hin Hplain H1 Hpos) as (hr & _ & Hl).
      split; [ eexists; exact Hl | ]. rewrite Hdom. exact Hd. }
  destruct Hok as [r Hr]. exists self, r. split; [ exact Hinit | ]. split.
  - unfold main. rewrite Hinit. cbn [bind default]. exact Hr.
  - intros it Hin Hs.
    destruct (Hitems it Hin Hs) as (Hplain & Hpos & _).
    assert (H1 : (1 <= length (it_hr it))%nat) by (specialize (Hlen it Hin); lia).
    destruct (default_item_lnhr cfg it Hnd Hin Hplain H1 Hpos) as (hr & Hhr & Hl).
    exists hr. split; [ exact Hhr | ].
    apply compute_inv in Hr as (pd & iy & Ht & _ & -> & _).
    apply Hmem in Hin.
    destruct (domain_totals_item_years_in _ _ _ _ _ Ht Hnd' Hin Hs) as (x & Hx & _ & Hy).
    rewrite Hy. congruence.
Qed.

Lemma cli_cfg_checks : config_checks cli_cfg.
Proof. apply init_ok. eexists. run_engine. reflexivity. Qed.

Lemma X24_default_run_witness :
  exists self r,
    THAEngine.__init__ cli_cfg = Ok self /\
    main cli_cfg (40 # 1) None = Ok r /\
    itemYears r !! "symptoms" = Some (ln (Q2R (11 # 10)) / THAEngine.b self)%R.
Proof.
  assert (Hnd : NoDup (it_id <$> cfg_items cli_cfg))
    by (apply (bool_decide_unpack _); vm_compute; reflexivity).
  destruct (X24_default_run_succeeds cli_cfg (40 # 1) cli_cfg_checks Hnd)
    as (self & r & Hinit & Hr & Hy).
  - intros it Hin Hs. cbn in Hin.
    apply elem_of_cons in Hin as [-> | Hin];
      [ | apply elem_of_cons in Hin as [-> | Hin];
          [ discriminate Hs | apply elem_of_cons in Hin as [-> | Hin];
                              [ | inversion Hin ] ] ].
    + split; [ split; [ discriminate | reflexivity ] | ].
      split; [ | eexists; reflexivity ].
      intros hr Hhr. cbn in Hhr.
      repeat (apply elem_of_cons in Hhr as [-> | Hhr]; [ reflexivity | ]).
      inversion Hhr.
    + split; [ split; [ discriminate | reflexivity ] | ].
      split; [ | eexists; reflexivity ].
      intros hr Hhr. cbn in Hhr.
      repeat (apply elem_of_cons in Hhr as [-> | Hhr]; [ reflexivity | ]).
      inversion Hhr.
  - intros _ Hw. exfalso. cbn in Hw.
    repeat (apply elem_of_cons in Hw as [Hw | Hw]; [ discriminate Hw | ]).
    inversion Hw.
  - exists self, r. split; [ exact Hinit | ]. split; [ exact Hr | ].
    destruct (Hy symptoms_item) as (hr & Hhr & Hsym); [ left | reflexivity | ].
    cbn in Hhr. injection Hhr as <-. exact Hsym.
Defined.

(** ** The chronological age *)



(** ** Years and doubling time *)

(** X26.  For an engine the constructor returned, with distinct item
    identifiers: a scored item whose selected hazard ratio is hr is
    reported with mrdt_years * log2(hr) years; a hazard ratio of 2 costs
    exactly one doubling time, and a hazard ratio of 1 costs nothing. *)
Theorem X26_item_years_in_doubling_times
        (cfg : Config) (self : THAEngine.t) (age : Q) (answers : gmap string Raw)
        (r : THAResult) (it : Item) (bin : option Z) (hr : Q) :
  THAEngine.__init__ cfg = Ok self ->
  NoDup (it_id <$> cfg_items cfg) ->
  THAEngine.compute self age answers = Ok r ->
  it ∈ THAEngine.items self ->
  scored it = true ->
  _raw_to_bin it (answers_get answers (it_id it)) = Ok bin ->
  selected_hr it bin = Ok hr ->
  itemYears r !! it_id it = Some (Q2R (cfg_mrdt_years cfg) * (ln (Q2R hr) / ln 2))%R /\
  (hr = (2 # 1)%Q -> itemYears r !! it_id it = Some (Q2R (cfg_mrdt_years cfg))) /\
  (hr = (1 # 1)%Q -> itemYears r !! it_id it = Some 0%R).
Proof.
  intros Hinit Hnd Hr Hin Hs Hbin Hsel.
  destruct (init_inv _ _ Hinit) as ((Hm & _) & Hb & _ & Hsorted & _).
  assert (Hnd' : NoDup (it_id <$> THAEngine.items self))
    by (rewrite Hsorted, sorted_by_order_perm; exact Hnd).
  pose proof (Q2R_pos _ Hm) as Hmpos. pose proof ln_2_pos as H2.
  apply compute_inv in Hr as (pd & iy & Ht & _ & -> & _).
  destruct (domain_totals_item_years_in _ _ _ _ _ Ht Hnd' Hin Hs) as (x & Hx & _ & Hy).
  rewrite (item_lnhr_selected _ _ _ _ Hbin Hsel) in Hx.
  destruct (Qle_bool hr 0); [ discriminate | ]. injection Hx as <-.
  assert (Hgen : iy !! it_id it
                 = Some (Q2R (cfg_mrdt_years cfg) * (ln (Q2R hr) / ln 2))%R).
  { rewrite Hy, Hb. f_equal. field. split; lra. }
  split; [ exact Hgen | ]. split.
  - intros ->. rewrite Hgen. f_equal.
    replace (Q2R (2 # 1)) with 2%R by (unfold Q2R; cbn [Qnum Qden]; lra).
    field. lra.
  - intros ->. rewrite Hgen, ln_Q2R_one. f_equal. field. lra.
Qed.

Lemma X26_item_years_witness :
  exists r,
    THAEngine.compute demo_engine (40 # 1) nonsmoker_answers = Ok r /\
    itemYears r !! "smoking" = Some 0%R.
Proof.
  destruct nonsmoker_compute as [r Hr]. exists r. split; [ exact Hr | ].
  assert (Hnd : NoDup (it_id <$> cfg_items demo_cfg))
    by (apply (bool_decide_unpack _); vm_compute; reflexivity).
  assert (Hin : smoking_item ∈ THAEngine.items demo_engine) by left.
  assert (Hbin : _raw_to_bin smoking_item
                   (answers_get nonsmoker_answers (it_id smoking_item)) = Ok (Some 1))
    by (vm_compute; reflexivity).
  assert (Hsel : selected_hr smoking_item (Some 1) = Ok (1 # 1)%Q)
    by (vm_compute; reflexivity).
  exact (proj2 (proj2 (X26_item_years_in_doubling_times demo_cfg demo_engine (40 # 1)
                         nonsmoker_answers r smoking_item (Some 1) (1 # 1)%Q
                         demo_engine_init Hnd Hr Hin eq_refl Hbin Hsel)) eq_refl).
Defined.

(** ** Which domains an answer can move *)

Lemma sum_terms_ext (f g : Item -> R) (l : list Item) :
  (forall it, it ∈ l -> f it = g it) -> sum_terms f l = sum_terms g l.
Proof.
  intros H. apply Rle_antisym; apply sum_terms_le; intros it Hin;
    rewrite (H it Hin); lra.
Qed.

(** X27.  An answer only moves the domains of the items that read it:
    when two answer maps differ at one identifier only, a domain that no
    item with that identifier belongs to (and that is not "body" when the
    identifier is "height" or "weight") is reported with the same years. *)
Theorem X27_answer_moves_own_domains_only
        (self : THAEngine.t) (age : Q) (answers1 answers2 : gmap string Raw)
        (r1 r2 : THAResult) (k d : string) :
  (forall k', k' <> k -> answers2 !! k' = answers1 !! k') ->
  (forall it, it ∈ THAEngine.items self -> it_id it = k -> it_domain it <> d) ->
  (k = "height" \/ k = "weight" -> d <> "body") ->
  THAEngine.compute self age answers1 = Ok r1 ->
  THAEngine.compute self age answers2 = Ok r2 ->
  domainYears r2 !! d = domainYears r1 !! d.
Proof.
  intros Hfix Hdom Hbody Hr1 Hr2.
  destruct (THAEngine.domains self !! d) as [caps|] eqn:Hd.
  2: { rewrite (compute_domain_years_none _ _ _ _ _ Hr1 Hd).
       apply (compute_domain_years_none _ _ _ _ _ Hr2 Hd). }
  destruct (compute_domain_years _ _ _ _ _ _ Hr1 Hd) as (lo & hi & Hlo & Hhi & ->).
  destruct (compute_domain_years _ _ _ _ _ _ Hr2 Hd) as (lo' & hi' & Hlo' & Hhi' & ->).
  assert (lo' = lo) by congruence. assert (hi' = hi) by congruence. subst lo' hi'.
  do 3 f_equal. unfold spec_unclamped_total. f_equal.
  - destruct (decide (k = "height" \/ k = "weight")) as [Hk | Hk].
    + unfold bmi_term.
      assert (Hne : String.eqb "body" d = false)
        by (apply String.eqb_neq; intros <-; exact (Hbody Hk eq_refl)).
      rewrite Hne, !andb_false_r. reflexivity.
    + apply (bmi_term_agree answers1 answers2 k Hfix); intros ->; apply Hk; auto.
  - apply sum_terms_ext. intros it Hin.
    destruct (decide (it_id it = k)) as [Heq | Hne].
    + unfold item_term.
      assert (Hne : String.eqb (it_domain it) d = false)
        by (apply String.eqb_neq, Hdom; assumption).
      rewrite Hne, !andb_false_r. reflexivity.
    + apply (item_term_agree answers1 answers2 k Hfix d it Hne).
Qed.

Lemma X27_answer_moves_witness :
  exists r1 r2,
    THAEngine.compute demo_engine (40 # 1) smoker_answers = Ok r1 /\
    THAEngine.compute demo_engine (40 # 1) nonsmoker_answers = Ok r2 /\
    domainYears r2 !! "diet" = domainYears r1 !! "diet".
Proof.
  destruct smoker_compute as [r1 Hr1]. destruct nonsmoker_compute as [r2 Hr2].
  exists r1, r2. split; [ exact Hr1 | ]. split; [ exact Hr2 | ].
  apply (X27_answer_moves_own_domains_only demo_engine (40 # 1)
           smoker_answers nonsmoker_answers r1 r2 "smoking" "diet");
    [ | | | exact Hr1 | exact Hr2 ].
  - intros k Hk. unfold nonsmoker_answers, smoker_answers.
    rewrite !lookup_insert_ne by congruence. reflexivity.
  - intros it Hin Hid. cbn in Hin.
    repeat (apply elem_of_cons in Hin as [-> | Hin]; [ discriminate | ]).
    inversion Hin.
  - intros [H | H]; discriminate H.
Defined.

(** ** A better answer and the overall result *)

Lemma sum_values_insert (m : gmap string R) (k : string) (v : R) :
  m !! k = None -> sum_values (<[k := v]> m) = (v + sum_values m)%R.
Proof.
  intros Hk. unfold sum_values. rewrite !sum_fold_left.
  rewrite (sum_foldr_perm ((map_to_list (<[k := v]> m)).*2) (v :: (map_to_list m).*2)).
  - cbn. lra.
  - rewrite (map_to_list_insert m k v Hk). reflexivity.
Qed.

Lemma sum_values_le (m1 : gmap string R) :
  forall m2 : gmap string R,
    dom m2 = dom m1 ->
    (forall k v1 v2, m1 !! k = Some v1 -> m2 !! k = Some v2 -> (v2 <= v1)%R) ->
    (sum_values m2 <= sum_values m1)%R.
Proof.
  induction m1 as [|k v1 m1 Hk IH] using map_ind; intros m2 Hdom Hle.
  - rewrite dom_empty_L in Hdom. apply dom_empty_inv_L in Hdom. subst m2. lra.
  - assert (Hin : k ∈ dom m2) by (rewrite Hdom, dom_insert_L; set_solver).
    apply elem_of_dom in Hin as [v2 Hv2].
    rewrite <- (insert_delete_id m2 k v2 Hv2).
    rewrite !sum_values_insert by (first [ exact Hk | apply lookup_delete_eq ]).
    assert (H1 : (v2 <= v1)%R)
      by (apply (Hle k); [ apply lookup_insert_eq | exact Hv2 ]).
    assert (H2 : (sum_values (delete k m2) <= sum_values m1)%R).
    { apply IH.
      - rewrite dom_delete_L, Hdom, dom_insert_L.
        apply not_elem_of_dom in Hk. set_solver.
      - intros k' w1 w2 Hw1 Hw2.
        assert (Hne : k' <> k) by (intros ->; congruence).
        apply (Hle k').
        + rewrite lookup_insert_ne by congruence. exact Hw1.
        + rewrite lookup_delete_ne in Hw2 by congruence. exact Hw2. }
    lra.
Qed.

Lemma global_clamp_mono (c x y : R) :
  (x <= y)%R -> (Rmax (- c) (Rmin c x) <= Rmax (- c) (Rmin c y))%R.
Proof.
  intros H. apply Rle_max_compat_l. apply Rle_min_compat_l. exact H.
Qed.

(** X28.  Under the conditions of a one-step improvement (an engine the
    constructor returned, distinct identifiers, a scored item whose hr
    array is in decreasing risk order, one answer moved from bin i to bin
    i+1, both evaluations succeeding), the age acceleration and the true
    health age do not increase. *)
Theorem X28_better_bin_never_increases_age
        (cfg : Config) (self : THAEngine.t) (age : Q)
        (answers1 answers2 : gmap string Raw) (r1 r2 : THAResult) (it : Item) (i : Z) :
  THAEngine.__init__ cfg = Ok self ->
  NoDup (it_id <$> cfg_items cfg) ->
  it ∈ THAEngine.items self ->
  scored it = true ->
  (forall (j : nat) (x y : Q),
     it_hr it !! j = Some x -> it_hr it !! S j = Some y -> (y <= x)%Q) ->
  (forall k, k <> it_id it -> answers2 !! k = answers1 !! k) ->
  0 <= i ->
  _raw_to_bin it (answers_get answers1 (it_id it)) = Ok (Some i) ->
  _raw_to_bin it (answers_get answers2 (it_id it)) = Ok (Some (i + 1)) ->
  THAEngine.compute self age answers1 = Ok r1 ->
  THAEngine.compute self age answers2 = Ok r2 ->
  (AgeAccel r2 <= AgeAccel r1)%R /\ (THA r2 <= THA r1)%R.
Proof.
  intros Hinit Hnd Hin Hs Hdec Hfix Hi Hb1 Hb2 Hr1 Hr2.
  pose proof (init_b_pos _ _ Hinit) as Hb.
  pose proof (unclamped_total_decreases cfg self age answers1 answers2 r1 r2 it i
                Hinit Hnd Hin Hdec Hfix Hi Hb1 Hb2 Hr1 Hr2) as Htot.
  destruct (compute_inv _ _ _ _ Hr1) as (pd1 & iy1 & Ht1 & _ & _ & Ha1 & Hy1).
  destruct (compute_inv _ _ _ _ Hr2) as (pd2 & iy2 & Ht2 & _ & _ & Ha2 & Hy2).
  destruct (domain_totals_spec _ _ _ _ Ht1) as [Hdom1 Hspec1].
  destruct (domain_totals_spec _ _ _ _ Ht2) as [Hdom2 Hspec2].
  assert (Hsum : (sum_values pd2 <= sum_values pd1)%R).
  { apply sum_values_le; [ congruence | ].
    intros d v1 v2 Hv1 Hv2.
    assert (Hd : is_Some (THAEngine.domains self !! d))
      by (apply elem_of_dom; rewrite <- Hdom1; apply elem_of_dom; eauto).
    destruct Hd as [caps Hd].
    destruct (Hspec1 d caps Hd) as (lo & hi & Hlo & Hhi & Hp1).
    destruct (Hspec2 d caps Hd) as (lo' & hi' & Hlo' & Hhi' & Hp2).
    assert (lo' = lo) by congruence. assert (hi' = hi) by congruence. subst lo' hi'.
    rewrite Hp1 in Hv1. rewrite Hp2 in Hv2. injection Hv1 as <-. injection Hv2 as <-.
    apply clamp_mono, Htot, Hs. }
  assert (Hacc : (AgeAccel r2 <= AgeAccel r1)%R).
  { rewrite Ha1, Ha2. apply global_clamp_mono, div_b_le; [ exact Hb | exact Hsum ]. }
  split; [ exact Hacc | ]. rewrite Hy1, Hy2. lra.
Qed.

Lemma X28_better_bin_age_witness :
  exists r1 r2,
    THAEngine.compute demo_engine (40 # 1) smoker_answers = Ok r1 /\
    THAEngine.compute demo_engine (40 # 1) nonsmoker_answers = Ok r2 /\
    (AgeAccel r2 <= AgeAccel r1)%R /\ (THA r2 <= THA r1)%R.
Proof.
  destruct smoker_compute as [r1 Hr1]. destruct nonsmoker_compute as [r2 Hr2].
  exists r1, r2. split; [ exact Hr1 | ]. split; [ exact Hr2 | ].
  assert (Hnd : NoDup (it_id <$> cfg_items demo_cfg))
    by (apply (bool_decide_unpack _); vm_compute; reflexivity).
  assert (Hin : smoking_item ∈ THAEngine.items demo_engine) by left.
  assert (Hfix : forall k, k <> it_id smoking_item ->
                           nonsmoker_answers !! k = smoker_answers !! k).
  { intros k Hk. unfold nonsmoker_answers, smoker_answers.
    rewrite !lookup_insert_ne by (intros Heq; apply Hk; symmetry; exact Heq).
    reflexivity. }
  assert (Hi : 0 <= 0) by lia.
  assert (Hb1 : _raw_to_bin smoking_item (answers_get smoker_answers (it_id smoking_item))
                = Ok (Some 0)) by (vm_compute; reflexivity).
  assert (Hb2 : _raw_to_bin smoking_item (answers_get nonsmoker_answers (it_id smoking_item))
                = Ok (Some (0 + 1))) by (vm_compute; reflexivity).
  exact (X28_better_bin_never_increases_age demo_cfg demo_engine (40 # 1)
           smoker_answers nonsmoker_answers r1 r2 smoking_item 0
           demo_engine_init Hnd Hin eq_refl smoking_hr_decreasing Hfix Hi Hb1 Hb2 Hr1 Hr2).
Defined.
